(** * PS2 Half-Life texture extraction: a shallow embedding

    The repository holds two Python scripts that decode 8-bit indexed
    textures out of a PS2 Half-Life [.dol] model file:

    - [PS2-HLTE.py], the marker-scan pipeline ([extract_textures]), and
    - [dol_png.py], the fixed-header pipeline (class [MDLViewerDarkFit]).

    Python [bytes] are lists of [Byte.byte]; offsets are [nat]; a Python
    exception is the [Raise] branch of [result]; [for] loops are folds in
    the [result] monad; the two [while] loops carry fuel together with a
    lemma that the fuel handed to them is never exhausted. *)

From Stdlib Require Import ZArith Lia String Ascii DecimalString Zify ZifyNat.
From Stdlib.Strings Require Byte.
From stdpp Require Import base option list numbers strings gmap.

Ltac Zify.zify_post_hook ::= Z.div_mod_to_equations.

Local Open Scope nat_scope.

Abbreviation byte := Byte.byte.

#[global] Instance byte_eq_dec : EqDecision byte := Byte.byte_eq_dec.

(** ** Exceptions and the [result] monad *)

Inductive exn : Set :=
| IndexError
| ValueError
| ZeroDivisionError
| TypeError.

Inductive result (A : Type) : Type :=
| Ok (a : A)
| Raise (e : exn).

Arguments Ok {A} a.
Arguments Raise {A} e.

#[global] Instance result_ret : MRet result := fun A a => Ok a.

#[global] Instance result_bind : MBind result := fun A B f m =>
  match m with
  | Ok a => f a
  | Raise e => Raise e
  end.

(** [for i in is: s = body(i, s)], stopping at the first exception. *)
Fixpoint for_loop {St : Type} (ixs : list nat) (body : nat -> St -> result St)
    (s : St) : result St :=
  match ixs with
  | [] => Ok s
  | i :: ixs' => s' ← body i s; for_loop ixs' body s'
  end.

(** [for i in range(n)] *)
Definition for_range {St : Type} (n : nat) (body : nat -> St -> result St)
    (s : St) : result St :=
  for_loop (seq 0 n) body s.

(** ** Python sequence primitives *)

(** [l[i]] for [0 <= i] *)
Definition getitem {A : Type} (l : list A) (i : nat) : result A :=
  match l !! i with
  | Some x => Ok x
  | None => Raise IndexError
  end.

(** [l[i] = v] on a mutable sequence, for [0 <= i] *)
Definition setitem {A : Type} (l : list A) (i : nat) (v : A) : result (list A) :=
  if bool_decide (i < length l) then Ok (<[i := v]> l) else Raise IndexError.

(** [l[a:b]] for [0 <= a] and [0 <= b]; a slice never raises. *)
Definition slice {A : Type} (l : list A) (a b : nat) : list A :=
  take (b - a) (drop a l).

(** * dol_png.py *)

(** ** [ps2_palette_reformat] *)

(** [p[i], p[j] = p[j], p[i]]: the right-hand side is read first, then
    [p[i]] and [p[j]] are stored in that order. *)
Definition swap_items (p : list byte) (i j : nat) : result (list byte) :=
  a ← getitem p j;
  b ← getitem p i;
  p1 ← setitem p i a;
  setitem p1 j b.

(** One iteration of the loop of [ps2_palette_reformat].  The index
    [i - 0x08 * s] is only formed under the guard [0x10 * s <= r], where
    [r <= i], so the subtraction never goes below zero. *)
Definition reformat_body (s : nat) (i : nat) (p : list byte) : result (list byte) :=
  if bool_decide (0x20 * s = 0) then Raise ZeroDivisionError
  else
    let r := i mod (0x20 * s) in
    if bool_decide (0x10 * s ≤ r < 0x18 * s)
    then swap_items p i (i - 0x08 * s)
    else Ok p.

Definition ps2_palette_reformat_s (pal : list byte) (s : nat) : result (list byte) :=
  for_range (length pal) (reformat_body s) pal.

(** The call sites pass no [s], so the default [s=4] applies. *)
Definition ps2_palette_reformat (pal : list byte) : result (list byte) :=
  ps2_palette_reformat_s pal 4.

(** The permutation in the words of the specification: inside every
    128-byte block the bytes at block offsets 64..95 trade places with the
    bytes 32 positions earlier; a byte whose partner would lie beyond the
    end of the buffer, and every other byte, stays where it is. *)
Definition swizzle_source (n j : nat) : nat :=
  if decide (64 ≤ j mod 128 < 96) then j - 32
  else if decide (32 ≤ j mod 128 < 64 ∧ j + 32 < n) then j + 32
  else j.

Definition swizzle_permutation (pal : list byte) : list byte :=
  imap (fun j b => default b (pal !! swizzle_source (length pal) j)) pal.


(** ** The texture table and the image library *)

(** One entry of [self.textures], the dictionary that [load_mdl] builds
    with the keys [name], [flags], [width], [height], [offset] and
    [palette]. *)
Record texture : Type := {
  tex_name : string;
  tex_flags : nat;
  tex_width : nat;
  tex_height : nat;
  tex_offset : nat;
  tex_palette : list byte
}.

(** The calls the viewer makes into the imaging library.  A pixel is the
    tuple [tuple(palette_raw[i:i + 3])], hence a list of at most three
    bytes. *)
Class ImageLibrary : Type := {
  rgb_image : Type;
  indexed_image : Type;
  (** [img = Image.new("RGB", (width, height)); img.putdata(pixels)] *)
  new_rgb_image : nat -> nat -> list (list byte) -> result rgb_image;
  (** [img.convert("P", palette=Image.ADAPTIVE, colors=256)] *)
  convert_adaptive : rgb_image -> indexed_image
}.

(** ** [get_texture_image] *)

(** [[f(x) for x in xs]] where [f] may raise *)
Fixpoint comprehension {A B : Type} (f : A -> result B) (xs : list A)
    : result (list B) :=
  match xs with
  | [] => Ok []
  | x :: xs' => y ← f x; ys ← comprehension f xs'; Ok (y :: ys)
  end.

(** [range(0, 1024, 4)] *)
Definition palette_offsets : list nat := (fun k => k * 4) <$> seq 0 256.

(** [[tuple(palette_raw[i:i + 3]) for i in range(0, 1024, 4)]] *)
Definition texture_palette (palette_raw : list byte) : list (list byte) :=
  (fun i => slice palette_raw i (i + 3)) <$> palette_offsets.

(** [palette[i % len(palette)]] *)
Definition palette_lookup (palette : list (list byte)) (i : byte)
    : result (list byte) :=
  if bool_decide (length palette = 0) then Raise ZeroDivisionError
  else getitem palette (Byte.to_nat i mod length palette).

(** The list [pixels] that is handed to [putdata]. *)
Definition texture_pixels (data : list byte) (tex : texture)
    : result (list (list byte)) :=
  let palette_raw := tex_palette tex in
  let width := tex_width tex in
  let height := tex_height tex in
  let offset := tex_offset tex in
  let palette := texture_palette palette_raw in
  let pixel_data := slice data (offset + 1024) (offset + 1024 + width * height) in
  comprehension (palette_lookup palette) pixel_data.

(** [try: ... return img / except Exception: return None] *)
Definition get_texture_image `{ImageLibrary} (data : list byte) (tex : texture)
    : option rgb_image :=
  match pixels ← texture_pixels data tex;
        new_rgb_image (tex_width tex) (tex_height tex) pixels with
  | Ok img => Some img
  | Raise _ => None
  end.

(** ** [save_all_png8] *)

(** [str.lower] on the letters [A]..[Z] *)
Definition lower_char (c : ascii) : ascii :=
  let n := nat_of_ascii c in
  if bool_decide (65 ≤ n ≤ 90) then ascii_of_nat (n + 32) else c.

Fixpoint str_lower (s : string) : string :=
  match s with
  | EmptyString => EmptyString
  | String c rest => String (lower_char c) (str_lower rest)
  end.

(** [s.replace('.bmp', '')] *)
Fixpoint remove_bmp (s : string) : string :=
  match s with
  | String "." (String "b" (String "m" (String "p" rest))) => remove_bmp rest
  | String c rest => String c (remove_bmp rest)
  | EmptyString => EmptyString
  end.

(** [tex['name'] or f"texture_{count}"] *)
Definition safe_name (tex : texture) (count : nat) : string :=
  match tex_name tex with
  | EmptyString => "texture_" ++ NilZero.string_of_uint (Nat.to_uint count)
  | name => name
  end.

(** [f"{safe_name.lower().replace('.bmp', '')}.png"], the name of the file
    inside the chosen folder. *)
Definition png_file_name (tex : texture) (count : nat) : string :=
  remove_bmp (str_lower (safe_name tex count)) ++ ".png".

(** The loop of [save_all_png8] once a folder has been chosen: the files
    written, in order, and the final [count].  An image object is always
    truthy, so [if img:] only filters out [None]; writing a file is taken
    to succeed. *)
Fixpoint save_all_loop `{ImageLibrary} (data : list byte) (textures : list texture)
    (count : nat) : list (string * indexed_image) * nat :=
  match textures with
  | [] => ([], count)
  | tex :: textures' =>
    match get_texture_image data tex with
    | Some img =>
      let img8 := convert_adaptive img in
      let file_path := png_file_name tex count in
      let '(files, count') := save_all_loop data textures' (count + 1) in
      ((file_path, img8) :: files, count')
    | None => save_all_loop data textures' count
    end
  end.

Definition save_all_png8 `{ImageLibrary} (data : list byte) (textures : list texture)
    : list (string * indexed_image) * nat :=
  save_all_loop data textures 0.

(** ** A model of the imaging library

    Used to run the viewer on concrete inputs; the general statements
    below hold for every [ImageLibrary].  [Image.new] makes a black image,
    and [putdata] copies the sequence in from the upper left corner: it
    rejects a sequence longer than the image and an item that is not a
    colour, and it leaves the pixels beyond a shorter sequence as they are.
    The colour quantisation is not modelled. *)
Record pixel_image : Type := {
  image_size : nat * nat;
  image_pixels : list (list byte)
}.

Definition pillow_new_rgb_image (width height : nat) (pixels : list (list byte))
    : result pixel_image :=
  if bool_decide (Forall (fun px => length px = 3) pixels) then
    if bool_decide (length pixels ≤ width * height) then
      Ok {| image_size := (width, height);
            image_pixels :=
              pixels ++ replicate (width * height - length pixels)
                                  [Byte.x00; Byte.x00; Byte.x00] |}
    else Raise TypeError
  else Raise TypeError.

Definition pillow : ImageLibrary := {|
  rgb_image := pixel_image;
  indexed_image := pixel_image;
  new_rgb_image := pillow_new_rgb_image;
  convert_adaptive := fun img => img
|}.
(** * PS2-HLTE.py *)

(** ** Python builtins used by the script *)

(** [data.find(sub, start)]: the lowest index [i >= start] such that
    [data[i:i+len(sub)] == sub]; [None] stands for Python's [-1]. *)
Fixpoint find_in (l sub : list byte) (pos : nat) : option nat :=
  if bool_decide (take (length sub) l = sub) then Some pos
  else
    match l with
    | [] => None
    | _ :: l' => find_in l' sub (S pos)
    end.

Definition find (data sub : list byte) (start : nat) : option nat :=
  if bool_decide (start ≤ length data)
  then find_in (drop start data) sub start
  else None.

(** [int.from_bytes(bs, byteorder='little')] *)
Fixpoint int_from_bytes_little (bs : list byte) : nat :=
  match bs with
  | [] => 0
  | b :: bs' => Byte.to_nat b + 256 * int_from_bytes_little bs'
  end.

(** [bs.decode('ascii', errors='ignore')]: a byte above [0x7F] is not
    ASCII and is left out of the string. *)
Definition decode_ascii_ignore (bs : list byte) : string :=
  string_of_list_byte (filter (fun b => Byte.to_nat b < 128) bs).

(** [s.endswith(suffix)] *)
Definition endswith (s suffix : string) : bool :=
  bool_decide (String.length suffix ≤ String.length s)
  && String.eqb
       (substring (String.length s - String.length suffix)
                  (String.length suffix) s)
       suffix.

(** A [while cond(s): s = body(s)] loop.  [None] means that the fuel ran
    out before the condition became false. *)
Fixpoint while_loop {St : Type} (fuel : nat) (cond : St -> bool) (body : St -> St)
    (s : St) : option St :=
  match fuel with
  | 0 => None
  | S fuel' =>
      if cond s then while_loop fuel' cond body (body s) else Some s
  end.

(** ** The helpers of the script *)

(** [re.sub(r'[\x00]', '_', filename)] *)
Fixpoint sanitize_filename (filename : string) : string :=
  match filename with
  | EmptyString => EmptyString
  | String c rest =>
      String (if Ascii.eqb c "000"%char then "_"%char else c)
             (sanitize_filename rest)
  end.

Abbreviation color := (byte * byte * byte)%type.

(** [r, g, b, a = color] raises [ValueError] unless the slice holds four
    bytes. *)
Definition extract_palette (texture_data : list byte) (num_colors : nat)
    : result (list color) :=
  for_range num_colors (fun i palette =>
    let start := i * 4 in
    match slice texture_data start (start + 4) with
    | [r; g; b; a] => Ok (palette ++ [(r, g, b)])
    | _ => Raise ValueError
    end) [].

(** [indices[y, x] = v] on a two-dimensional array *)
Definition setitem2 (indices : list (list byte)) (y x : nat) (v : byte)
    : result (list (list byte)) :=
  row ← getitem indices y;
  row' ← setitem row x v;
  setitem indices y row'.

(** The array starts as [np.zeros((height, width), dtype=np.uint8)]; the
    [palette] argument is not used by the body. *)
Definition extract_texture_indices (texture_data : list byte)
    (palette : list color) (width height : nat) : result (list (list byte)) :=
  let indices := replicate height (replicate width Byte.x00) in
  for_range height (fun y indices =>
    for_range width (fun x indices =>
      pixel_idx ← getitem texture_data (y * width + x);
      setitem2 indices y x pixel_idx) indices) indices.

(** ** [extract_textures] *)

Definition psx_marker : list byte := [Byte.x70; Byte.x73; Byte.x78; Byte.x5f].
Definition gman_marker : list byte := [Byte.x67; Byte.x6d; Byte.x61; Byte.x6e].
Definition data_sentinel : list byte := [Byte.xff; Byte.xff; Byte.xff; Byte.x80].

(** The condition of the inner [while]:
    [name_end + 3 < len(data) and data[name_end:name_end + 3] != b'\x00\x00\x00'] *)
Definition name_continues (data : list byte) (name_end : nat) : bool :=
  bool_decide (name_end + 3 < length data)
  && negb (bool_decide
             (slice data name_end (name_end + 3) = [Byte.x00; Byte.x00; Byte.x00])).

(** [name_end = name_start + 4], then [name_end += 1] while the condition
    holds. *)
Definition scan_name_end (data : list byte) (name_start : nat) : option nat :=
  while_loop (S (length data)) (name_continues data) S (name_start + 4).

(** What the script writes to disk: [image.save(f"{texture_name}.bmp")]
    for a mode-P image made of the index array and the flattened palette
    [[component for color in palette for component in color]].  Building
    the image from the array and writing the file are taken to succeed;
    the [print] calls and the counter [texture_count], which is never read,
    are left out. *)
Record bmp_file : Type := {
  bmp_name : string;
  bmp_indices : list (list byte);
  bmp_palette : list byte
}.

(** The size pattern in front of the sentinel.  [size_pattern_start] may
    be negative in Python, so it is an integer here. *)
Definition size_pattern (data : list byte) (texture_start : nat)
    : option (nat * nat) :=
  let size_pattern_start : Z := (Z.of_nat texture_start - 4)%Z in
  if bool_decide (0 ≤ size_pattern_start)%Z then
    let size_data :=
      slice data (Z.to_nat size_pattern_start) (Z.to_nat size_pattern_start + 4) in
    let width := int_from_bytes_little (take 2 size_data) in
    let height := int_from_bytes_little (drop 2 size_data) in
    Some (width, height)
  else None.

(** Palette and pixel extraction, image construction and saving, for the
    decoded [width] and [height]. *)
Definition decode_texture (texture_name : string) (texture_data : list byte)
    (width height : nat) : result bmp_file :=
  let num_colors := 256 in
  palette ← extract_palette texture_data num_colors;
  indices ← extract_texture_indices (drop (num_colors * 4) texture_data)
              palette width height;
  Ok {| bmp_name := texture_name ++ ".bmp";
        bmp_indices := indices;
        bmp_palette := flat_map (fun '(r, g, b) => [r; g; b]) palette |}.

(** The effect of one pass through the body of the outer [while]. *)
Inductive iteration : Type :=
| Break
| Continue (start : nat) (saved : option bmp_file)
| Abort (e : exn)
| Stuck.

(** The marker search that opens the loop body: [psx_] is looked for
    first and, when it is found, the result is replaced by that of a
    search for [gman] from the same [start]. *)
Definition find_name_start (data : list byte) (start : nat) : option nat :=
  let name_start := find data psx_marker start in
  match name_start with
  | Some _ => find data gman_marker start
  | None => name_start
  end.

(** [data[name_start:name_end].decode('ascii', errors='ignore')], then
    [sanitize_filename]. *)
Definition texture_name_at (data : list byte) (name_start name_end : nat) : string :=
  sanitize_filename (decode_ascii_ignore (slice data name_start name_end)).

(** The rest of the body once the sentinel is located at [texture_start];
    [start] is the value assigned before the search, that is [name_end]. *)
Definition process_texture (data : list byte) (texture_name : string)
    (start texture_start : nat) : iteration :=
  let next_texture_start := find data psx_marker (texture_start + 4) in
  let texture_end := default (length data) next_texture_start in
  let texture_data := slice data texture_start texture_end in
  match size_pattern data texture_start with
  | Some (width, height) =>
    match decode_texture texture_name texture_data width height with
    | Ok file => Continue start (Some file)
    | Raise e => Abort e
    end
  | None => Continue start None
  end.

Definition scan_iteration (data : list byte) (start : nat) : iteration :=
  match find_name_start data start with
  | None => Break
  | Some name_start =>
    match scan_name_end data name_start with
    | None => Stuck
    | Some name_end =>
      let texture_name := texture_name_at data name_start name_end in
      if endswith texture_name ".BMP" then Continue name_end None
      else
        let start := name_end in
        match find data data_sentinel start with
        | None => Break
        | Some texture_start => process_texture data texture_name start texture_start
        end
    end
  end.

(** How a run of the script ends. *)
Inductive ending : Set :=
| Finished
| Raised (e : exn)
| OutOfFuel.

(** [while start < len(data): ...], returning the files saved, in the
    order in which they were written, and the way the run ended. *)
Fixpoint scan_loop (fuel : nat) (data : list byte) (start : nat)
    : list bmp_file * ending :=
  match fuel with
  | 0 => ([], OutOfFuel)
  | S fuel' =>
    if bool_decide (start < length data) then
      match scan_iteration data start with
      | Break => ([], Finished)
      | Abort e => ([], Raised e)
      | Stuck => ([], OutOfFuel)
      | Continue start' saved =>
        let '(files, e) := scan_loop fuel' data start' in
        (option_list saved ++ files, e)
      end
    else ([], Finished)
  end.

(** The scan from [start] on, with fuel that is never used up. *)
Definition scan_from (data : list byte) (start : nat) : list bmp_file * ending :=
  scan_loop (S (length data)) data start.

(** [extract_textures] applied to the content [data] of the file. *)
Definition extract_textures (data : list byte) : list bmp_file * ending :=
  scan_from data 0.

(** * dol_png.py: [load_mdl]

    The part of [load_mdl] that reads the file, fills the header entries
    and builds [self.textures].  The list box refresh and the first
    rendering that follow a successful parse only touch widgets and are
    not modelled. *)

Definition HEADER_FIELDS : list (string * nat) :=
  [("id", 0); ("version", 4); ("name", 8); ("length", 72);
   ("eyeposition", 76); ("min", 88); ("max", 100);
   ("bbmin", 112); ("bbmax", 124); ("flags", 136);
   ("numbones", 140); ("boneindex", 144);
   ("numbonecontrollers", 148); ("bonecontrollerindex", 152);
   ("numhitboxes", 156); ("hitboxindex", 160);
   ("numseq", 164); ("seqindex", 168);
   ("numseqgroups", 172); ("seqgroupindex", 176);
   ("numtextures", 180); ("textureindex", 184);
   ("texturedataindex", 188); ("numskinref", 192);
   ("numskinfamilies", 196); ("skinindex", 200);
   ("numbodyparts", 204); ("bodypartindex", 208);
   ("numattachments", 212); ("attachmentindex", 216);
   ("soundtable", 220); ("soundindex", 224);
   ("soundgroups", 228); ("soundgroupindex", 232);
   ("numtransitions", 236); ("transitionindex", 240)]%string.

(** The exceptions that can occur inside the [try] of [load_mdl]:
    [struct.error], [KeyError], or one of the exceptions of [exn]. *)
Inductive viewer_exn : Set :=
| StructError
| KeyError
| Python (e : exn).

Inductive attempt (A : Type) : Type :=
| Done (a : A)
| Failed (e : viewer_exn).

Arguments Done {A} a.
Arguments Failed {A} e.

#[global] Instance attempt_ret : MRet attempt := fun A a => Done a.

#[global] Instance attempt_bind : MBind attempt := fun A B f m =>
  match m with
  | Done a => f a
  | Failed e => Failed e
  end.

Definition lift_result {A : Type} (r : result A) : attempt A :=
  match r with
  | Ok a => Done a
  | Raise e => Failed (Python e)
  end.

(** The bytes that [struct.unpack_from(fmt, data, offset)] decodes, for a
    format of [size] bytes; [struct.error] when the buffer is too short. *)
Definition unpack_from (size : nat) (data : list byte) (offset : nat)
    : attempt (list byte) :=
  if bool_decide (offset + size ≤ length data)
  then Done (slice data offset (offset + size))
  else Failed StructError.

(** [struct.unpack_from("<I", data, offset)[0]] *)
Definition unpack_uint32 (data : list byte) (offset : nat) : attempt nat :=
  raw ← unpack_from 4 data offset; Done (int_from_bytes_little raw).

(** [bs.split(b"\x00")[0]] *)
Fixpoint before_nul (bs : list byte) : list byte :=
  match bs with
  | [] => []
  | b :: bs' => if bool_decide (b = Byte.x00) then [] else b :: before_nul bs'
  end.

(** The text put into a header entry: the decoded name, the text of an
    unsigned number, or the text [f"{x:.2f},{y:.2f},{z:.2f}"] of the three
    floats held in twelve bytes, which is kept as those bytes. *)
Inductive field_value : Type :=
| Number (n : nat)
| Text (s : string)
| Vector (raw : list byte).

Definition vector_fields : list string :=
  ["eyeposition"; "min"; "max"; "bbmin"; "bbmax"]%string.

Section loader.
(** [bytes.decode(errors="ignore")], the UTF-8 decoder of Python. *)
Context (decode : list byte -> string).

(** The value computed for one header field. *)
Definition header_value (data : list byte) (name : string) (offset : nat)
    : attempt field_value :=
  if bool_decide (name = "name"%string) then
    Done (Text (decode (before_nul (slice data offset (offset + 64)))))
  else if bool_decide (name ∈ vector_fields) then
    raw ← unpack_from 12 data offset; Done (Vector raw)
  else
    n ← unpack_uint32 data offset; Done (Number n).

(** [for name, offset in HEADER_FIELDS: ...]: the entries as they stand
    when the loop ends or raises.  [self.entries[name]] raises [KeyError]
    for a name without an entry. *)
Fixpoint parse_header (data : list byte) (fields : list (string * nat))
    (entries : gmap string field_value)
    : gmap string field_value * option viewer_exn :=
  match fields with
  | [] => (entries, None)
  | (name, offset) :: fields' =>
    match header_value data name offset with
    | Done value =>
      match entries !! name with
      | Some _ => parse_header data fields' (<[name := value]> entries)
      | None => (entries, Some KeyError)
      end
    | Failed e => (entries, Some e)
    end
  end.

(** [int(self.entries[name].get())].  It is applied to integer fields
    after the header loop, whose entries hold the text of a number. *)
Definition entry_int (entries : gmap string field_value) (name : string)
    : attempt nat :=
  match entries !! name with
  | Some (Number n) => Done n
  | Some _ => Failed (Python ValueError)
  | None => Failed KeyError
  end.

(** The dictionary appended for texture [i]. *)
Definition load_texture (reformat : bool) (data : list byte)
    (textureindex i data_offset : nat) : attempt texture :=
  let base := textureindex + i * 80 in
  let tex_name := decode (before_nul (slice data base (base + 64))) in
  tex_flags ← unpack_uint32 data (base + 64);
  tex_width ← unpack_uint32 data (base + 68);
  tex_height ← unpack_uint32 data (base + 72);
  let palette_raw := slice data data_offset (data_offset + 1024) in
  palette_raw ←
    (if reformat then lift_result (ps2_palette_reformat palette_raw)
     else Done palette_raw);
  Done {| tex_name := tex_name; tex_flags := tex_flags;
          tex_width := tex_width; tex_height := tex_height;
          tex_offset := data_offset; tex_palette := palette_raw |}.

(** [for i in range(numtextures): ...]: [self.textures] is appended to in
    place, so the entries built before an exception stay in it. *)
Fixpoint load_textures (reformat : bool) (data : list byte) (textureindex : nat)
    (ixs : list nat) (textures : list texture) (data_offset : nat)
    : list texture * option viewer_exn :=
  match ixs with
  | [] => (textures, None)
  | i :: ixs' =>
    match load_texture reformat data textureindex i data_offset with
    | Done tex =>
      load_textures reformat data textureindex ixs' (textures ++ [tex])
        (data_offset + (1024 + 32 + tex_width tex * tex_height tex))
    | Failed e => (textures, Some e)
    end
  end.

(** The fields of the viewer object that the parse reads and writes. *)
Record viewer : Type := {
  viewer_data : option (list byte);
  viewer_textures : list texture;
  viewer_entries : gmap string field_value;
  reformat_var : bool
}.

(** The state after [load_mdl] on a file whose content is [file], and the
    exception caught by its [except] clause, if any. *)
Definition load_mdl (st : viewer) (file : list byte) : viewer * option viewer_exn :=
  let '(entries, err) := parse_header file HEADER_FIELDS (viewer_entries st) in
  let st1 := {| viewer_data := Some file; viewer_textures := viewer_textures st;
                viewer_entries := entries; reformat_var := reformat_var st |} in
  match err with
  | Some e => (st1, Some e)
  | None =>
    match textureindex ← entry_int entries "textureindex";
          texturedataindex ← entry_int entries "texturedataindex";
          numtextures ← entry_int entries "numtextures";
          Done (textureindex, texturedataindex, numtextures) with
    | Failed e => (st1, Some e)
    | Done (textureindex, texturedataindex, numtextures) =>
      let data_offset := texturedataindex + 32 in
      let '(textures, err) :=
        load_textures (reformat_var st) file textureindex (seq 0 numtextures)
          [] data_offset in
      ({| viewer_data := Some file; viewer_textures := textures;
          viewer_entries := entries; reformat_var := reformat_var st |}, err)
    end
  end.
End loader.

(** The viewer as [__init__] leaves it: no file, no texture, an empty
    entry for every header field, and the reformat switch on. *)
Definition new_viewer : viewer :=
  {| viewer_data := None;
     viewer_textures := [];
     viewer_entries := list_to_map ((fun f => (f.1, Text "")) <$> HEADER_FIELDS);
     reformat_var := true |}.
(** * Auxiliary definitions used by the proofs *)

(** Source index of position [j] once the loop has handled indices [< k]. *)
Definition swizzle_partial (k j : nat) : nat :=
  if decide (64 ≤ j mod 128 < 96 ∧ j < k) then j - 32
  else if decide (32 ≤ j mod 128 < 64 ∧ j + 32 < k) then j + 32
  else j.

Definition swizzle_upto (k : nat) (pal : list byte) : list byte :=
  imap (fun j b => default b (pal !! swizzle_partial k j)) pal.


(** What [sanitize_filename] does to one decoded byte. *)
Definition nul_to_underscore (b : byte) : byte :=
  if bool_decide (b = Byte.x00) then Byte.x5f else b.

(** The first run of three zero bytes at or after [from] starts at [p]. *)
Definition first_zero_run (data : list byte) (from p : nat) : Prop :=
  from ≤ p
  ∧ slice data p (p + 3) = [Byte.x00; Byte.x00; Byte.x00]
  ∧ ∀ q, from ≤ q < p -> slice data q (q + 3) ≠ [Byte.x00; Byte.x00; Byte.x00].

(** The grid in the words of the specification: row [y] holds the bytes
    [y*width .. y*width + width - 1]. *)
Definition row_major_grid (bytes : list byte) (width height : nat)
    : list (list byte) :=
  (fun y => slice bytes (y * width) (y * width + width)) <$> seq 0 height.

(** The claim as the specification words it: the name is made of the bytes
    that lie between the marker and the first zero run. *)
Definition name_is_bytes_after_marker : Prop :=
  ∀ (data : list byte) (start name_start p : nat),
    find_name_start data start = Some name_start ->
    first_zero_run data (name_start + 4) p ->
    scan_name_end data name_start = Some p
    ∧ texture_name_at data name_start p =
        sanitize_filename (decode_ascii_ignore (slice data (name_start + 4) p)).


(** ** Concrete inputs *)

(** A palette block whose entry 5 is (10, 20, 30). *)
Definition palette_with_entry_5 : list byte :=
  replicate 20 Byte.x00 ++ [Byte.x0a; Byte.x14; Byte.x1e; Byte.x00]
  ++ replicate 1000 Byte.x00.

(** A 2x2 texture at offset 0 whose pixel bytes are all 5. *)
Definition all_five_texture : texture :=
  {| tex_name := "five.bmp"; tex_flags := 0; tex_width := 2; tex_height := 2;
     tex_offset := 0; tex_palette := palette_with_entry_5 |}.

Definition all_five_data : list byte :=
  palette_with_entry_5 ++ [Byte.x05; Byte.x05; Byte.x05; Byte.x05].

(** A 2x2 texture at offset 0 in a file that stops after two of its four
    pixel bytes. *)
Definition truncated_texture : texture :=
  {| tex_name := "cut.bmp"; tex_flags := 0; tex_width := 2; tex_height := 2;
     tex_offset := 0; tex_palette := palette_with_entry_5 |}.

Definition truncated_data : list byte :=
  palette_with_entry_5 ++ [Byte.x05; Byte.x05].

(** A texture whose palette block holds a single byte, so that no colour
    tuple of it has three components. *)
Definition broken_texture : texture :=
  {| tex_name := "broken.bmp"; tex_flags := 0; tex_width := 1; tex_height := 1;
     tex_offset := 0; tex_palette := [Byte.x01] |}.

(** One record of the marker-scan format: the name (with both markers in
    it), three zero bytes, the size pattern, and the data block, which
    opens with the sentinel and holds 1024 palette bytes followed by the
    [pixels]. *)
Definition scan_record (name : string) (width height : byte) (pixels : list byte)
    : list byte :=
  list_byte_of_string name
  ++ [Byte.x00; Byte.x00; Byte.x00]
  ++ [width; Byte.x00; height; Byte.x00]
  ++ data_sentinel ++ replicate 1020 Byte.x07
  ++ pixels.

(** A good record, a record that lacks three of its four pixel bytes, and
    a second good record. *)
Definition three_record_buffer : list byte :=
  scan_record "psx_gmanA" Byte.x02 Byte.x02 [Byte.x00; Byte.x01; Byte.x02; Byte.x03]
  ++ scan_record "psx_gmanB" Byte.x02 Byte.x02 [Byte.x09]
  ++ scan_record "psx_gmanC" Byte.x01 Byte.x01 [Byte.x04].

(** A single well-formed record whose name starts with [psx_]. *)
Definition psx_record_buffer : list byte :=
  scan_record "psx_A" Byte.x02 Byte.x02 [Byte.x00; Byte.x01; Byte.x02; Byte.x03].

(** A buffer whose only name is [gmanAB]. *)
Definition marked_name_buffer : list byte :=
  list_byte_of_string "psx_gmanAB" ++ [Byte.x00; Byte.x00; Byte.x00; Byte.x00].


(** A buffer whose only name is [gmanX.BMP]. *)
Definition bmp_name_buffer : list byte :=
  list_byte_of_string "psx_gmanX.BMP" ++ [Byte.x00; Byte.x00; Byte.x00; Byte.x00].


(** A model file with one 2x2 texture named [a]: the 244-byte header
    (one texture, table at 244, data index 292), the 80-byte table entry,
    the palette block at 324 and four pixel bytes. *)
Definition one_texture_file : list byte :=
  replicate 180 Byte.x00
  ++ [Byte.x01; Byte.x00; Byte.x00; Byte.x00]
  ++ [Byte.xf4; Byte.x00; Byte.x00; Byte.x00]
  ++ [Byte.x24; Byte.x01; Byte.x00; Byte.x00]
  ++ replicate 52 Byte.x00
  ++ (Byte.x61 :: replicate 63 Byte.x00)
  ++ [Byte.x00; Byte.x00; Byte.x00; Byte.x00]
  ++ [Byte.x02; Byte.x00; Byte.x00; Byte.x00]
  ++ [Byte.x02; Byte.x00; Byte.x00; Byte.x00]
  ++ [Byte.x00; Byte.x00; Byte.x00; Byte.x00]
  ++ palette_with_entry_5
  ++ [Byte.x05; Byte.x05; Byte.x05; Byte.x05].

(** Two names, [gmanA] and [gmanB], in front of a single data block. *)
Definition two_names_buffer : list byte :=
  list_byte_of_string "psx_gmanA" ++ [Byte.x00; Byte.x00; Byte.x00]
  ++ scan_record "psx_gmanB" Byte.x01 Byte.x01 [Byte.x04].

(** A palette block in which only colour 8 is not black. *)
Definition palette_with_entry_8 : list byte :=
  replicate 32 Byte.x00 ++ [Byte.x0a; Byte.x14; Byte.x1e; Byte.x00]
  ++ replicate 988 Byte.x00.

(** A model file with a 2x2 and a 1x1 texture: the header (two textures,
    table at 244, data index 372), two table entries, and the two data
    blocks at 404 and 1464 with 32 bytes between them. *)
Definition two_texture_file : list byte :=
  replicate 180 Byte.x00
  ++ [Byte.x02; Byte.x00; Byte.x00; Byte.x00]
  ++ [Byte.xf4; Byte.x00; Byte.x00; Byte.x00]
  ++ [Byte.x74; Byte.x01; Byte.x00; Byte.x00]
  ++ replicate 52 Byte.x00
  ++ (Byte.x61 :: replicate 63 Byte.x00)
  ++ [Byte.x00; Byte.x00; Byte.x00; Byte.x00]
  ++ [Byte.x02; Byte.x00; Byte.x00; Byte.x00]
  ++ [Byte.x02; Byte.x00; Byte.x00; Byte.x00]
  ++ [Byte.x00; Byte.x00; Byte.x00; Byte.x00]
  ++ (Byte.x62 :: replicate 63 Byte.x00)
  ++ [Byte.x00; Byte.x00; Byte.x00; Byte.x00]
  ++ [Byte.x01; Byte.x00; Byte.x00; Byte.x00]
  ++ [Byte.x01; Byte.x00; Byte.x00; Byte.x00]
  ++ [Byte.x00; Byte.x00; Byte.x00; Byte.x00]
  ++ palette_with_entry_5
  ++ [Byte.x05; Byte.x05; Byte.x05; Byte.x05]
  ++ replicate 32 Byte.x00
  ++ palette_with_entry_8
  ++ [Byte.x08].

(** ** Definitions used to state further properties *)

(** The palette slot whose colour ends up in slot [k] after the swizzle:
    in every group of 32 colours the slots 8..15 and 16..23 change
    places. *)
Definition colour_source (k : nat) : nat :=
  if decide (16 ≤ k mod 32 < 24) then k - 8
  else if decide (8 ≤ k mod 32 < 16) then k + 8
  else k.

(** The number of bytes that the decoding of a header field needs. *)
Definition field_size (name : string) : nat :=
  if bool_decide (name = "name"%string) then 0
  else if bool_decide (name ∈ vector_fields) then 12
  else 4.

(** A header field can be decoded from a file of [len] bytes: the name is
    cut out by a slice and always can, a number or vector must lie inside
    the file. *)
Definition field_readable (len : nat) (f : string * nat) : Prop :=
  f.1 = "name"%string ∨ f.2 + field_size f.1 ≤ len.

#[global] Instance field_readable_dec len f : Decision (field_readable len f).
Proof. unfold field_readable. apply _. Defined.

(** The unsigned 32-bit little-endian number at [offset]. *)
Definition uint32_at (data : list byte) (offset : nat) : nat :=
  int_from_bytes_little (slice data offset (offset + 4)).

(** How many 80-byte table entries starting at [textureindex] have their
    name, flags, width and height (76 bytes) inside a file of [len]
    bytes. *)
Definition table_capacity (len textureindex : nat) : nat :=
  if decide (textureindex + 76 ≤ len) then (len - textureindex - 76) / 80 + 1
  else 0.

(** Where the palette block of texture [i] starts: 32 bytes after
    [texturedataindex], with 1024 palette bytes, the pixels and 32 more
    bytes for every texture before it. *)
Definition data_offset_of (data : list byte) (textureindex texturedataindex i : nat)
    : nat :=
  texturedataindex + 32
  + sum_list ((fun j => 1024 + 32
                        + uint32_at data (textureindex + j * 80 + 68)
                          * uint32_at data (textureindex + j * 80 + 72))
              <$> seq 0 i).

(** Every header field has an entry. *)
Definition entries_ready (entries : gmap string field_value) : Prop :=
  Forall (fun f : string * nat => is_Some (entries !! f.1)) HEADER_FIELDS.

(** The table entry [i] as [load_mdl] records it when its 76 bytes lie
    inside the file. *)
Definition table_texture (decode : list byte -> string) (reformat : bool)
    (data : list byte) (textureindex texturedataindex i : nat) : texture :=
  let base := textureindex + i * 80 in
  let offset := data_offset_of data textureindex texturedataindex i in
  let raw := slice data offset (offset + 1024) in
  {| tex_name := decode (before_nul (slice data base (base + 64)));
     tex_flags := uint32_at data (base + 64);
     tex_width := uint32_at data (base + 68);
     tex_height := uint32_at data (base + 72);
     tex_offset := offset;
     tex_palette := if reformat then swizzle_permutation raw else raw |}.
(** * Proofs *)

(** ** Loops *)

Lemma for_loop_app {St : Type} (ixs1 ixs2 : list nat) (body : nat -> St -> result St) s :
  for_loop (ixs1 ++ ixs2) body s = s' ← for_loop ixs1 body s; for_loop ixs2 body s'.
Proof.
  revert s. induction ixs1 as [|i ixs1 IH]; intros s; simpl; [done|].
  destruct (body i s) as [s'|e]; simpl; [apply IH | done].
Qed.

Lemma for_range_S {St : Type} n (body : nat -> St -> result St) s :
  for_range (S n) body s = s' ← for_range n body s; body n s'.
Proof.
  unfold for_range. rewrite seq_S, for_loop_app. simpl.
  destruct (for_loop (seq 0 n) body s) as [s'|e]; simpl; [|done].
  by destruct (body n s').
Qed.

(** ** The palette swizzle *)

Lemma length_swizzle_upto k pal : length (swizzle_upto k pal) = length pal.
Proof. apply length_imap. Qed.

Lemma lookup_swizzle_upto k pal j :
  j < length pal ->
  swizzle_partial k j < length pal ->
  swizzle_upto k pal !! j = pal !! swizzle_partial k j.
Proof.
  intros Hj Hs. unfold swizzle_upto. rewrite list_lookup_imap.
  destruct (lookup_lt_is_Some_2 pal j Hj) as [b ->].
  destruct (lookup_lt_is_Some_2 pal _ Hs) as [c ->]. done.
Qed.

Lemma swizzle_partial_lt k n j : j < n -> k ≤ n -> swizzle_partial k j < n.
Proof. intros. unfold swizzle_partial. repeat case_decide; lia. Qed.

Lemma reformat_body_step pal k :
  k < length pal ->
  reformat_body 4 k (swizzle_upto k pal) = Ok (swizzle_upto (S k) pal).
Proof.
  intros Hk. unfold reformat_body.
  change (0x20 * 4) with 128. change (0x10 * 4) with 64.
  change (0x18 * 4) with 96. change (0x08 * 4) with 32.
  rewrite bool_decide_eq_false_2 by lia.
  case_bool_decide as Hr.
  - unfold swap_items, getitem, setitem.
    rewrite !lookup_swizzle_upto by (try apply swizzle_partial_lt; lia).
    replace (swizzle_partial k (k - 32)) with (k - 32)
      by (unfold swizzle_partial; repeat case_decide; lia).
    replace (swizzle_partial k k) with k
      by (unfold swizzle_partial; repeat case_decide; lia).
    destruct (lookup_lt_is_Some_2 pal (k - 32) ltac:(lia)) as [a Ha].
    destruct (lookup_lt_is_Some_2 pal k Hk) as [b Hb].
    rewrite Ha, Hb. simpl.
    rewrite bool_decide_eq_true_2 by (rewrite length_swizzle_upto; lia).
    simpl.
    rewrite bool_decide_eq_true_2
      by (rewrite length_insert, length_swizzle_upto; lia).
    f_equal. apply list_eq. intros j.
    destruct (decide (j < length pal)) as [Hj|Hj].
    2:{ rewrite !lookup_ge_None_2; [done| |];
        rewrite ?length_insert, length_swizzle_upto; lia. }
    rewrite (lookup_swizzle_upto (S k)) by (try apply swizzle_partial_lt; lia).
    destruct (decide (j = k - 32)) as [->|Hne1].
    { rewrite list_lookup_insert_eq
        by (rewrite length_insert, length_swizzle_upto; lia).
      replace (swizzle_partial (S k) (k - 32)) with k; [done|].
      unfold swizzle_partial; repeat case_decide; lia. }
    rewrite list_lookup_insert_ne by lia.
    destruct (decide (j = k)) as [->|Hne2].
    { rewrite list_lookup_insert_eq by (rewrite length_swizzle_upto; lia).
      replace (swizzle_partial (S k) k) with (k - 32); [done|].
      unfold swizzle_partial; repeat case_decide; lia. }
    rewrite list_lookup_insert_ne by lia.
    rewrite lookup_swizzle_upto by (try apply swizzle_partial_lt; lia).
    f_equal. unfold swizzle_partial; repeat case_decide; lia.
  - f_equal. apply list_eq. intros j.
    destruct (decide (j < length pal)) as [Hj|Hj].
    2:{ rewrite !lookup_ge_None_2; [done| |];
        rewrite length_swizzle_upto; lia. }
    rewrite !lookup_swizzle_upto by (try apply swizzle_partial_lt; lia).
    f_equal. unfold swizzle_partial; repeat case_decide; lia.
Qed.

Lemma swizzle_upto_0 pal : swizzle_upto 0 pal = pal.
Proof.
  apply list_eq. intros j. unfold swizzle_upto. rewrite list_lookup_imap.
  destruct (pal !! j) as [b|] eqn:Hj; [|done]. simpl.
  replace (swizzle_partial 0 j) with j
    by (unfold swizzle_partial; repeat case_decide; lia).
  by rewrite Hj.
Qed.

Lemma swizzle_upto_length pal : swizzle_upto (length pal) pal = swizzle_permutation pal.
Proof.
  apply list_eq. intros j. unfold swizzle_upto, swizzle_permutation.
  rewrite !list_lookup_imap.
  destruct (pal !! j) as [b|] eqn:Hj; [|done]. simpl.
  apply lookup_lt_Some in Hj.
  do 3 f_equal. unfold swizzle_partial, swizzle_source.
  repeat case_decide; lia.
Qed.

Lemma reformat_prefix pal k :
  k ≤ length pal ->
  for_range k (reformat_body 4) pal = Ok (swizzle_upto k pal).
Proof.
  induction k as [|k IH]; intros Hk.
  - by rewrite swizzle_upto_0.
  - rewrite for_range_S, IH by lia. simpl. apply reformat_body_step. lia.
Qed.

Lemma ps2_palette_reformat_spec pal :
  ps2_palette_reformat pal = Ok (swizzle_permutation pal).
Proof.
  unfold ps2_palette_reformat, ps2_palette_reformat_s.
  rewrite reformat_prefix by done. by rewrite swizzle_upto_length.
Qed.

Lemma length_swizzle_permutation pal :
  length (swizzle_permutation pal) = length pal.
Proof. apply length_imap. Qed.

Lemma swizzle_source_lt n j : j < n -> swizzle_source n j < n.
Proof. intros. unfold swizzle_source. repeat case_decide; lia. Qed.

Lemma lookup_swizzle_permutation pal j :
  j < length pal ->
  swizzle_permutation pal !! j = pal !! swizzle_source (length pal) j.
Proof.
  intros Hj. unfold swizzle_permutation. rewrite list_lookup_imap.
  destruct (lookup_lt_is_Some_2 pal j Hj) as [b ->].
  destruct (lookup_lt_is_Some_2 pal _ (swizzle_source_lt _ _ Hj)) as [c ->].
  done.
Qed.

Lemma swizzle_source_involutive n j :
  j < n -> swizzle_source n (swizzle_source n j) = j.
Proof. intros. unfold swizzle_source. repeat case_decide; lia. Qed.

Lemma swizzle_permutation_involutive pal :
  swizzle_permutation (swizzle_permutation pal) = pal.
Proof.
  apply list_eq. intros j.
  destruct (decide (j < length pal)) as [Hj|Hj].
  - rewrite lookup_swizzle_permutation
      by (by rewrite length_swizzle_permutation).
    rewrite length_swizzle_permutation.
    rewrite lookup_swizzle_permutation by (by apply swizzle_source_lt).
    by rewrite swizzle_source_involutive.
  - rewrite !lookup_ge_None_2; [done| |];
      rewrite ?length_swizzle_permutation; lia.
Qed.

(** C1: the in-place loop of [ps2_palette_reformat] never raises and
    returns the declarative permutation: inside each 128-byte block every
    byte at block offset 64..95 is exchanged with the byte 32 positions
    earlier in the same block, every byte outside such a pair is unchanged,
    and running the correction twice gives back the input, for every byte
    string. *)
Theorem ps2_palette_reformat_swizzle (pal : list byte) :
  ps2_palette_reformat pal = Ok (swizzle_permutation pal)
  ∧ length (swizzle_permutation pal) = length pal
  ∧ (∀ i, i < length pal ∧ 64 ≤ i mod 128 < 96 →
       (i - 32) / 128 = i / 128
       ∧ swizzle_permutation pal !! i = pal !! (i - 32)
       ∧ swizzle_permutation pal !! (i - 32) = pal !! i)
  ∧ (∀ j, ¬ 64 ≤ j mod 128 < 96 ∧
          ¬ (32 ≤ j mod 128 < 64 ∧ j + 32 < length pal) →
       swizzle_permutation pal !! j = pal !! j)
  ∧ (q ← ps2_palette_reformat pal; ps2_palette_reformat q) = Ok pal.
Proof.
  split; [apply ps2_palette_reformat_spec|].
  split; [apply length_swizzle_permutation|].
  split; [|split].
  - intros i [Hi Hr]. split; [lia|].
    rewrite !lookup_swizzle_permutation by lia.
    unfold swizzle_source. split; repeat case_decide; f_equal; lia.
  - intros j [Hu Hl].
    destruct (decide (j < length pal)) as [Hj|Hj].
    + rewrite lookup_swizzle_permutation by done.
      unfold swizzle_source. repeat case_decide; f_equal; lia.
    + rewrite !lookup_ge_None_2; [done| |];
        rewrite ?length_swizzle_permutation; lia.
  - rewrite ps2_palette_reformat_spec. simpl.
    rewrite ps2_palette_reformat_spec.
    by rewrite swizzle_permutation_involutive.
Qed.

Lemma ps2_palette_reformat_swizzle_witness :
  ps2_palette_reformat (replicate 64 Byte.x01 ++ replicate 64 Byte.x02)
  = Ok (replicate 32 Byte.x01 ++ replicate 32 Byte.x02
        ++ replicate 32 Byte.x01 ++ replicate 32 Byte.x02).
Proof.
  destruct (ps2_palette_reformat_swizzle
              (replicate 64 Byte.x01 ++ replicate 64 Byte.x02)) as (Hrun & _).
  exact Hrun.
Defined.
(** ** [bytes.find] *)

Lemma slice_from {A : Type} (l : list A) p n :
  slice l p (p + n) = take n (drop p l).
Proof. unfold slice. f_equal. lia. Qed.

Lemma find_in_Some l sub pos p :
  find_in l sub pos = Some p ->
  pos ≤ p ≤ pos + length l
  ∧ take (length sub) (drop (p - pos) l) = sub
  ∧ ∀ q, pos ≤ q < p -> take (length sub) (drop (q - pos) l) ≠ sub.
Proof.
  revert pos. induction l as [|x l IH]; intros pos; simpl.
  - case_bool_decide as Hd; [|done]. intros [= <-].
    rewrite Nat.sub_diag. split; [lia|]. split; [done|]. intros q Hq. lia.
  - case_bool_decide as Hd.
    + intros [= <-]. rewrite Nat.sub_diag.
      split; [lia|]. split; [done|]. intros q Hq. lia.
    + intros Hf. destruct (IH _ Hf) as (Hle & Hat & Hbefore).
      split; [lia|]. split.
      * replace (p - pos) with (S (p - S pos)) by lia. done.
      * intros q Hq. destruct (decide (q = pos)) as [->|Hne].
        { by rewrite Nat.sub_diag. }
        replace (q - pos) with (S (q - S pos)) by lia.
        apply Hbefore. lia.
Qed.

Lemma find_in_None l sub pos q :
  find_in l sub pos = None -> take (length sub) (drop q l) ≠ sub.
Proof.
  revert pos q. induction l as [|x l IH]; intros pos q; simpl.
  - case_bool_decide as Hd; [done|]. intros _. by rewrite drop_nil.
  - case_bool_decide as Hd; [done|]. intros Hf.
    destruct q as [|q]; [done|]. simpl. by eapply IH.
Qed.

Lemma find_Some data sub start p :
  find data sub start = Some p ->
  start ≤ p
  ∧ p + length sub ≤ length data
  ∧ slice data p (p + length sub) = sub
  ∧ ∀ q, start ≤ q < p -> slice data q (q + length sub) ≠ sub.
Proof.
  unfold find. case_bool_decide as Hs; [|done]. intros Hf.
  destruct (find_in_Some _ _ _ _ Hf) as (Hle & Hat & Hbefore).
  rewrite drop_drop in Hat.
  replace (start + (p - start)) with p in Hat by lia.
  split; [lia|]. split.
  - apply (f_equal length) in Hat. rewrite length_take, length_drop in Hat.
    rewrite length_drop in Hle. lia.
  - split; [by rewrite slice_from|].
    intros q Hq. rewrite slice_from.
    specialize (Hbefore q Hq). rewrite drop_drop in Hbefore.
    by replace (start + (q - start)) with q in Hbefore by lia.
Qed.

Lemma find_None data sub start q :
  find data sub start = None -> start ≤ q ->
  sub ≠ [] ->
  slice data q (q + length sub) ≠ sub.
Proof.
  unfold find. case_bool_decide as Hs.
  - intros Hf Hq _. rewrite slice_from.
    pose proof (find_in_None _ _ _ (q - start) Hf) as Hn.
    rewrite drop_drop in Hn.
    by replace (start + (q - start)) with q in Hn by lia.
  - intros _ Hq Hsub. rewrite slice_from, drop_ge by lia.
    rewrite take_nil. done.
Qed.

Lemma find_absent data sub start :
  (∀ q, slice data q (q + length sub) ≠ sub) ->
  find data sub start = None.
Proof.
  intros Habs. destruct (find data sub start) as [p|] eqn:Hf; [|done].
  destruct (find_Some _ _ _ _ Hf) as (_ & _ & Hat & _).
  by destruct (Habs p).
Qed.

(** ** The inner [while] loop *)

Lemma while_loop_counter (cond : nat -> bool) (bound fuel s : nat) :
  (∀ x, cond x = true -> x < bound) ->
  bound - s < fuel ->
  ∃ e, while_loop fuel cond S s = Some e
       ∧ s ≤ e
       ∧ cond e = false
       ∧ ∀ q, s ≤ q < e -> cond q = true.
Proof.
  intros Hb. revert s. induction fuel as [|fuel IH]; intros s Hf; [lia|].
  simpl. destruct (cond s) eqn:Hc.
  - destruct (IH (S s)) as (e & He & Hle & Hce & Hq).
    { specialize (Hb _ Hc). lia. }
    exists e. split; [done|]. split; [lia|]. split; [done|].
    intros q Hqr. destruct (decide (q = s)) as [->|]; [done|].
    apply Hq. lia.
  - exists s. split; [done|]. split; [lia|]. split; [done|]. intros q Hq. lia.
Qed.

Lemma name_continues_lt data x : name_continues data x = true -> x < length data.
Proof.
  unfold name_continues. intros [H _]%andb_prop.
  apply bool_decide_eq_true in H. lia.
Qed.

Lemma scan_name_end_spec data name_start :
  ∃ name_end,
    scan_name_end data name_start = Some name_end
    ∧ name_start + 4 ≤ name_end
    ∧ name_continues data name_end = false
    ∧ ∀ q, name_start + 4 ≤ q < name_end -> name_continues data q = true.
Proof.
  unfold scan_name_end.
  apply (while_loop_counter _ (length data)); [apply name_continues_lt | lia].
Qed.

(** The loop stops exactly at the first offset at which its condition
    fails. *)
Lemma scan_name_end_first data name_start p :
  name_start + 4 ≤ p ->
  name_continues data p = false ->
  (∀ q, name_start + 4 ≤ q < p -> name_continues data q = true) ->
  scan_name_end data name_start = Some p.
Proof.
  intros Hp Hstop Hbefore.
  destruct (scan_name_end_spec data name_start) as (e & He & Hle & Hce & Hq).
  rewrite He. f_equal.
  destruct (Nat.lt_trichotomy e p) as [Hlt|[->|Hgt]]; [|done|].
  - rewrite Hbefore in Hce by lia. done.
  - rewrite Hq in Hstop by lia. done.
Qed.
(** ** The outer [while] loop *)

(** The offset used as the start of the name is that of a [gman] marker,
    and a [psx_] marker lies somewhere at or after [start]. *)
Lemma find_name_start_Some data start name_start :
  find_name_start data start = Some name_start ->
  start ≤ name_start
  ∧ name_start + 4 ≤ length data
  ∧ slice data name_start (name_start + 4) = gman_marker
  ∧ is_Some (find data psx_marker start).
Proof.
  unfold find_name_start.
  destruct (find data psx_marker start) as [p|] eqn:Hp; [|done].
  intros (Hle & Hlen & Hat & _)%find_Some. eauto.
Qed.

Lemma scan_iteration_not_stuck data start : scan_iteration data start ≠ Stuck.
Proof.
  unfold scan_iteration.
  destruct (find_name_start data start) as [name_start|]; [|done].
  destruct (scan_name_end_spec data name_start) as (name_end & -> & _).
  destruct (endswith _ _); [done|].
  destruct (find data data_sentinel name_end) as [texture_start|]; [|done].
  unfold process_texture.
  destruct (size_pattern data texture_start) as [[width height]|]; [|done].
  by destruct (decode_texture _ _ _ _).
Qed.

(** Every pass that goes round again moves [start] forward, past the
    marker it matched. *)
Lemma scan_iteration_progress data start start' saved :
  scan_iteration data start = Continue start' saved -> start + 4 ≤ start'.
Proof.
  unfold scan_iteration.
  destruct (find_name_start data start) as [name_start|] eqn:Hg; [|done].
  apply find_name_start_Some in Hg as (Hle & _).
  destruct (scan_name_end_spec data name_start) as (name_end & -> & Hne & _).
  destruct (endswith _ _); [intros [= <- _]; lia|].
  destruct (find data data_sentinel name_end) as [texture_start|]; [|done].
  unfold process_texture.
  destruct (size_pattern data texture_start) as [[width height]|];
    [|intros [= <- _]; lia].
  destruct (decode_texture _ _ _ _); [intros [= <- _]; lia|done].
Qed.

Lemma scan_loop_fuel fuel fuel' data start :
  length data - start < fuel ->
  length data - start < fuel' ->
  scan_loop fuel data start = scan_loop fuel' data start.
Proof.
  revert fuel' start. induction fuel as [|fuel IH]; intros fuel' start Hf Hf';
    [lia|].
  destruct fuel' as [|fuel']; [lia|]. simpl.
  case_bool_decide as Hs; [|done].
  destruct (scan_iteration data start) as [|start' saved| |] eqn:Hit; try done.
  apply scan_iteration_progress in Hit.
  rewrite (IH fuel' start') by lia. done.
Qed.

(** The loop equation of the scan, free of fuel. *)
Lemma scan_from_unfold data start :
  scan_from data start =
  if bool_decide (start < length data) then
    match scan_iteration data start with
    | Break => ([], Finished)
    | Abort e => ([], Raised e)
    | Stuck => ([], OutOfFuel)
    | Continue start' saved =>
      let '(files, e) := scan_from data start' in
      (option_list saved ++ files, e)
    end
  else ([], Finished).
Proof.
  unfold scan_from at 1. simpl.
  case_bool_decide as Hs; [|done].
  destruct (scan_iteration data start) as [|start' saved| |] eqn:Hit; try done.
  apply scan_iteration_progress in Hit.
  unfold scan_from. rewrite (scan_loop_fuel (length data) (S (length data)))
    by lia. done.
Qed.

(** The scan always terminates: the fuel it is given is never used up. *)
Lemma scan_loop_total fuel data start :
  length data - start < fuel ->
  (scan_loop fuel data start).2 ≠ OutOfFuel.
Proof.
  revert start. induction fuel as [|fuel IH]; intros start Hf; [lia|].
  simpl. case_bool_decide as Hs; [|done].
  destruct (scan_iteration data start) as [|start' saved| |] eqn:Hit;
    [done| |done|by apply scan_iteration_not_stuck in Hit].
  apply scan_iteration_progress in Hit.
  specialize (IH start' ltac:(lia)).
  by destruct (scan_loop fuel data start') as [files e].
Qed.

Lemma extract_textures_total data : (extract_textures data).2 ≠ OutOfFuel.
Proof. apply scan_loop_total. lia. Qed.

(** Without a [psx_] marker, or without a [gman] marker, nothing is found
    and the scan ends normally. *)
Lemma scan_from_no_psx data start :
  (∀ q, slice data q (q + 4) ≠ psx_marker) ->
  scan_from data start = ([], Finished).
Proof.
  intros Habs. rewrite scan_from_unfold. case_bool_decide; [|done].
  unfold scan_iteration, find_name_start.
  by rewrite (find_absent data psx_marker start Habs).
Qed.

Lemma scan_from_no_gman data start :
  (∀ q, slice data q (q + 4) ≠ gman_marker) ->
  scan_from data start = ([], Finished).
Proof.
  intros Habs. rewrite scan_from_unfold. case_bool_decide; [|done].
  unfold scan_iteration, find_name_start.
  rewrite (find_absent data gman_marker start Habs).
  by destruct (find data psx_marker start).
Qed.

Lemma extract_textures_empty : extract_textures [] = ([], Finished).
Proof. reflexivity. Qed.
(** ** Names with the reserved suffix *)

(** C9: when the name extracted in a pass of the scan ends in [.BMP], the
    pass saves nothing, it goes round again with [start] set to the end of
    that name, and the whole scan from [start] is the scan from the end of
    that name: the record is never searched for a texture. *)
Theorem bmp_suffix_skipped (data : list byte) (start name_start name_end : nat) :
  start < length data ->
  find_name_start data start = Some name_start ->
  scan_name_end data name_start = Some name_end ->
  endswith (texture_name_at data name_start name_end) ".BMP" = true ->
  scan_iteration data start = Continue name_end None
  ∧ scan_from data start = scan_from data name_end.
Proof.
  intros Hs Hn He Hbmp.
  assert (Hit : scan_iteration data start = Continue name_end None).
  { unfold scan_iteration. by rewrite Hn, He, Hbmp. }
  split; [done|].
  rewrite (scan_from_unfold data start), bool_decide_eq_true_2 by done.
  rewrite Hit. simpl. by destruct (scan_from data name_end).
Qed.

Lemma bmp_suffix_skipped_witness :
  scan_iteration bmp_name_buffer 0 = Continue 13 None
  ∧ scan_from bmp_name_buffer 0 = scan_from bmp_name_buffer 13.
Proof.
  apply (bmp_suffix_skipped bmp_name_buffer 0 4 13).
  - vm_compute. lia.
  - reflexivity.
  - reflexivity.
  - reflexivity.
Defined.

(** ** The size pattern *)

Lemma slice_lookup {A : Type} (l : list A) a b i :
  i < b - a -> slice l a b !! i = l !! (a + i).
Proof.
  intros Hi. unfold slice. rewrite lookup_take_lt by done.
  by rewrite lookup_drop.
Qed.

Lemma slice_4 {A : Type} (l : list A) a :
  a + 4 ≤ length l ->
  ∃ x0 x1 x2 x3,
    l !! a = Some x0 ∧ l !! (a + 1) = Some x1
    ∧ l !! (a + 2) = Some x2 ∧ l !! (a + 3) = Some x3
    ∧ slice l a (a + 4) = [x0; x1; x2; x3].
Proof.
  intros Hlen.
  destruct (lookup_lt_is_Some_2 l a ltac:(lia)) as [x0 H0].
  destruct (lookup_lt_is_Some_2 l (a + 1) ltac:(lia)) as [x1 H1].
  destruct (lookup_lt_is_Some_2 l (a + 2) ltac:(lia)) as [x2 H2].
  destruct (lookup_lt_is_Some_2 l (a + 3) ltac:(lia)) as [x3 H3].
  exists x0, x1, x2, x3. repeat (split; [done|]).
  apply list_eq. intros i.
  destruct (decide (i < 4)) as [Hi|Hi].
  - rewrite slice_lookup by lia.
    destruct i as [|[|[|[|i]]]]; simpl; [| | | |lia].
    + by rewrite Nat.add_0_r.
    + done.
    + done.
    + done.
  - rewrite lookup_ge_None_2.
    + by rewrite lookup_ge_None_2 by (simpl; lia).
    + unfold slice. rewrite length_take, length_drop. lia.
Qed.

(** C5: for a sentinel located at [texture_start] with at least four
    bytes in front of it, the pass decodes the texture with the width read
    as the little-endian 16-bit number in bytes 0-1, and the height as the
    one in bytes 2-3, of the four bytes that end at the sentinel. *)
Theorem size_pattern_dimensions (data : list byte) (texture_name : string)
    (start from texture_start : nat) :
  find data data_sentinel from = Some texture_start ->
  4 ≤ texture_start ->
  ∃ b0 b1 b2 b3 : byte,
    data !! (texture_start - 4) = Some b0
    ∧ data !! (texture_start - 3) = Some b1
    ∧ data !! (texture_start - 2) = Some b2
    ∧ data !! (texture_start - 1) = Some b3
    ∧ let width := Byte.to_nat b0 + 256 * Byte.to_nat b1 in
      let height := Byte.to_nat b2 + 256 * Byte.to_nat b3 in
      let texture_end :=
        default (length data) (find data psx_marker (texture_start + 4)) in
      size_pattern data texture_start = Some (width, height)
      ∧ process_texture data texture_name start texture_start =
          match decode_texture texture_name
                  (slice data texture_start texture_end) width height with
          | Ok file => Continue start (Some file)
          | Raise e => Abort e
          end.
Proof.
  intros Hf Hts. apply find_Some in Hf as (_ & Hlen & _).
  destruct (slice_4 data (texture_start - 4) ltac:(simpl in Hlen; lia))
    as (b0 & b1 & b2 & b3 & H0 & H1 & H2 & H3 & Hsl).
  exists b0, b1, b2, b3.
  replace (texture_start - 4 + 1) with (texture_start - 3) in H1 by lia.
  replace (texture_start - 4 + 2) with (texture_start - 2) in H2 by lia.
  replace (texture_start - 4 + 3) with (texture_start - 1) in H3 by lia.
  repeat (split; [done|]).
  assert (Hsp : size_pattern data texture_start =
                Some (Byte.to_nat b0 + 256 * Byte.to_nat b1,
                      Byte.to_nat b2 + 256 * Byte.to_nat b3)).
  { unfold size_pattern. rewrite bool_decide_eq_true_2 by lia.
    replace (Z.to_nat (Z.of_nat texture_start - 4)) with (texture_start - 4)
      by lia.
    rewrite Hsl. simpl. do 2 f_equal; lia. }
  split; [done|]. unfold process_texture. by rewrite Hsp.
Qed.

Lemma size_pattern_dimensions_witness :
  size_pattern (list_byte_of_string "gman" ++
                [Byte.x02; Byte.x01; Byte.x03; Byte.x00] ++ data_sentinel) 8
  = Some (258, 3).
Proof.
  destruct (size_pattern_dimensions
              (list_byte_of_string "gman" ++
               [Byte.x02; Byte.x01; Byte.x03; Byte.x00] ++ data_sentinel)
              "gman" 4 4 8)
    as (b0 & b1 & b2 & b3 & H0 & H1 & H2 & H3 & Hsz & _).
  - reflexivity.
  - lia.
  - injection H0 as <-. injection H1 as <-.
    injection H2 as <-. injection H3 as <-. exact Hsz.
Defined.
(** ** Name extraction *)

Lemma slice_app {A : Type} (l : list A) a b c :
  a ≤ b ≤ c -> slice l a c = slice l a b ++ slice l b c.
Proof.
  intros Habc. unfold slice.
  replace (c - a) with ((b - a) + (c - b)) by lia.
  rewrite <- take_take_drop, drop_drop. do 3 f_equal. lia.
Qed.

Lemma length_slice {A : Type} (l : list A) a b :
  length (slice l a b) = (b - a) `min` (length l - a).
Proof. unfold slice. by rewrite length_take, length_drop. Qed.

Lemma string_of_list_byte_app l1 l2 :
  string_of_list_byte (l1 ++ l2) =
  (string_of_list_byte l1 ++ string_of_list_byte l2)%string.
Proof.
  unfold string_of_list_byte.
  induction l1 as [|b l1 IH]; simpl in *; [done|]. by rewrite IH.
Qed.

Lemma sanitize_filename_app s1 s2 :
  sanitize_filename (s1 ++ s2) =
  (sanitize_filename s1 ++ sanitize_filename s2)%string.
Proof. induction s1 as [|c s1 IH]; simpl; [done|]. by rewrite IH. Qed.

Lemma sanitize_filename_bytes l :
  sanitize_filename (string_of_list_byte l) =
  string_of_list_byte (nul_to_underscore <$> l).
Proof.
  unfold string_of_list_byte.
  induction l as [|b l IH]; simpl in *; [done|]. rewrite IH. f_equal.
  by destruct b.
Qed.

Lemma decode_ascii_ignore_app l1 l2 :
  decode_ascii_ignore (l1 ++ l2) =
  (decode_ascii_ignore l1 ++ decode_ascii_ignore l2)%string.
Proof.
  unfold decode_ascii_ignore. by rewrite list.filter_app, string_of_list_byte_app.
Qed.

Lemma first_zero_run_name_end data name_start p :
  first_zero_run data (name_start + 4) p ->
  scan_name_end data name_start = Some p.
Proof.
  intros (Hle & Hz & Hbefore).
  assert (Hlen : p + 3 ≤ length data).
  { apply (f_equal length) in Hz. rewrite length_slice in Hz. simpl in Hz. lia. }
  apply scan_name_end_first; [done| |].
  - unfold name_continues. rewrite (bool_decide_eq_true_2 (slice _ _ _ = _)) by done.
    simpl. apply andb_false_r.
  - intros q Hq. unfold name_continues.
    rewrite bool_decide_eq_true_2 by lia.
    rewrite bool_decide_eq_false_2 by (apply Hbefore; lia). done.
Qed.

(** Without a run of three zero bytes the name ends three bytes before
    the end of the buffer, or right after the marker when the buffer is
    shorter than that. *)
Lemma scan_name_end_no_run data name_start :
  (∀ q, name_start + 4 ≤ q ->
        slice data q (q + 3) ≠ [Byte.x00; Byte.x00; Byte.x00]) ->
  scan_name_end data name_start = Some ((name_start + 4) `max` (length data - 3)).
Proof.
  intros Hno. apply scan_name_end_first; [lia| |].
  - unfold name_continues. rewrite bool_decide_eq_false_2 by lia. done.
  - intros q Hq. unfold name_continues.
    rewrite bool_decide_eq_true_2 by lia.
    rewrite bool_decide_eq_false_2 by (apply Hno; lia). done.
Qed.

Lemma first_zero_run_marked_name : first_zero_run marked_name_buffer 8 10.
Proof.
  split; [lia|]. split; [reflexivity|].
  intros q Hq. assert (q = 8 ∨ q = 9) as [-> | ->] by lia; by vm_compute.
Qed.

(** The name of the record in [marked_name_buffer] is [gmanAB], while the
    bytes between the marker and the zero run spell [AB]. *)
Lemma name_keeps_marker :
  find_name_start marked_name_buffer 0 = Some 4
  ∧ first_zero_run marked_name_buffer (4 + 4) 10
  ∧ texture_name_at marked_name_buffer 4 10 = "gmanAB"%string
  ∧ sanitize_filename (decode_ascii_ignore (slice marked_name_buffer (4 + 4) 10))
    = "AB"%string
  ∧ ¬ name_is_bytes_after_marker.
Proof.
  split; [reflexivity|]. split; [exact first_zero_run_marked_name|].
  split; [reflexivity|]. split; [reflexivity|].
  intros H.
  destruct (H marked_name_buffer 0 4 10 eq_refl first_zero_run_marked_name)
    as [_ Hname].
  vm_compute in Hname. discriminate Hname.
Qed.

(** C3, as the code has it: the scan for the end of the name starts right
    after the marker and stops at the first run of three zero bytes; the
    name is the marker itself followed by the bytes between the marker and
    that run, where bytes above [0x7F] are dropped by the ASCII decoding and
    every NUL byte becomes an underscore. *)
Theorem name_extraction (data : list byte) (start name_start p : nat) :
  find_name_start data start = Some name_start ->
  first_zero_run data (name_start + 4) p ->
  scan_name_end data name_start = Some p
  ∧ texture_name_at data name_start p =
      ("gman" ++
       string_of_list_byte
         (nul_to_underscore <$>
            filter (fun b => Byte.to_nat b < 128)
                   (slice data (name_start + 4) p)))%string.
Proof.
  intros Hn Hrun. split; [by apply first_zero_run_name_end|].
  apply find_name_start_Some in Hn as (_ & _ & Hat & _).
  destruct Hrun as (Hle & _).
  unfold texture_name_at.
  rewrite (slice_app data name_start (name_start + 4) p) by lia.
  rewrite Hat, decode_ascii_ignore_app, sanitize_filename_app.
  f_equal. unfold decode_ascii_ignore. apply sanitize_filename_bytes.
Qed.

Lemma name_extraction_witness :
  scan_name_end marked_name_buffer 4 = Some 10
  ∧ texture_name_at marked_name_buffer 4 10 =
      ("gman" ++
       string_of_list_byte
         (nul_to_underscore <$>
            filter (fun b => Byte.to_nat b < 128)
                   (slice marked_name_buffer (4 + 4) 10)))%string.
Proof.
  apply (name_extraction marked_name_buffer 0 4 10).
  - reflexivity.
  - exact first_zero_run_marked_name.
Defined.
(** ** Pixel indices *)

Lemma row_major_grid_S bytes width y :
  row_major_grid bytes width (S y) =
  row_major_grid bytes width y ++ [slice bytes (y * width) (y * width + width)].
Proof. unfold row_major_grid. by rewrite seq_S, fmap_app. Qed.

Lemma length_row_major_grid bytes width height :
  length (row_major_grid bytes width height) = height.
Proof. unfold row_major_grid. by rewrite length_fmap, length_seq. Qed.

#[local] Arguments row_major_grid : simpl never.

Lemma for_range_raise {St : Type} n k (body : nat -> St -> result St) s s' e :
  k < n ->
  for_range k body s = Ok s' ->
  body k s' = Raise e ->
  for_range n body s = Raise e.
Proof.
  intros Hk Hpre Hbody. unfold for_range in *.
  replace n with (k + (1 + (n - S k))) by lia.
  rewrite seq_app, for_loop_app, Hpre. simpl. by rewrite Hbody.
Qed.

Lemma slice_snoc {A : Type} (l : list A) a n x :
  l !! (a + n) = Some x ->
  slice l a (a + S n) = slice l a (a + n) ++ [x].
Proof.
  intros Hx. rewrite (slice_app l a (a + n) (a + S n)) by lia. f_equal.
  unfold slice. replace (a + S n - (a + n)) with 1 by lia.
  rewrite (drop_S _ _ _ Hx). simpl. by rewrite take_0.
Qed.

Lemma slice_full_length {A : Type} (l : list A) a n :
  a + n ≤ length l -> length (slice l a (a + n)) = n.
Proof. intros H. rewrite length_slice. lia. Qed.

Lemma insert_prefix_suffix {A : Type} (pre l : list A) (n : nat) (x : A) :
  length pre = n ->
  n < length l ->
  <[n := x]> (pre ++ drop n l) = (pre ++ [x]) ++ drop (S n) l.
Proof.
  intros <- Hlt.
  destruct (lookup_lt_is_Some_2 l (length pre) Hlt) as [c Hc].
  rewrite (drop_S _ _ _ Hc).
  rewrite insert_app_r_alt by lia. rewrite Nat.sub_diag. simpl.
  by rewrite <- app_assoc.
Qed.

Lemma setitem_ok {A : Type} (l : list A) i v :
  i < length l -> setitem l i v = Ok (<[i := v]> l).
Proof. intros Hi. unfold setitem. by rewrite bool_decide_eq_true_2. Qed.

Section indices.
Context (texture_data : list byte) (width : nat).

(** The body of [for x in range(width)] in row [y]. *)
Let cell (y x : nat) (indices : list (list byte)) : result (list (list byte)) :=
  pixel_idx ← getitem texture_data (y * width + x);
  setitem2 indices y x pixel_idx.

Lemma indices_row_prefix (indices : list (list byte)) (row : list byte) y x :
  indices !! y = Some row ->
  length row = width ->
  x ≤ width ->
  y * width + x ≤ length texture_data ->
  for_range x (cell y) indices =
  Ok (<[y := slice texture_data (y * width) (y * width + x) ++ drop x row]> indices).
Proof.
  intros Hy Hrow. induction x as [|x IH]; intros Hx Hlen.
  - unfold for_range. simpl. f_equal. unfold slice.
    rewrite Nat.add_0_r, Nat.sub_diag, take_0, drop_0. simpl.
    by rewrite list_insert_id.
  - rewrite for_range_S, IH by lia. simpl. unfold cell, getitem.
    destruct (lookup_lt_is_Some_2 texture_data (y * width + x) ltac:(lia))
      as [b Hb].
    rewrite Hb. simpl. unfold setitem2, getitem.
    assert (Hylt : y < length indices) by (by eapply lookup_lt_Some).
    rewrite list_lookup_insert_eq by done. simpl.
    assert (Hpre : length (slice texture_data (y * width) (y * width + x)) = x)
      by (apply slice_full_length; lia).
    rewrite setitem_ok by (rewrite length_app, Hpre, length_drop; lia).
    simpl. rewrite setitem_ok by (by rewrite length_insert).
    f_equal. rewrite list_insert_insert_eq. f_equal.
    rewrite insert_prefix_suffix by (done || lia).
    by rewrite (slice_snoc _ _ _ _ Hb).
Qed.

Lemma indices_row (indices : list (list byte)) (row : list byte) y :
  indices !! y = Some row ->
  length row = width ->
  y * width + width ≤ length texture_data ->
  for_range width (cell y) indices =
  Ok (<[y := slice texture_data (y * width) (y * width + width)]> indices).
Proof.
  intros Hy Hrow Hlen.
  rewrite (indices_row_prefix indices row) by (done || lia).
  by rewrite drop_ge, app_nil_r by lia.
Qed.

Lemma indices_rows_prefix height y :
  y ≤ height ->
  y * width ≤ length texture_data ->
  for_range y (fun y indices => for_range width (cell y) indices)
    (replicate height (replicate width Byte.x00)) =
  Ok (row_major_grid texture_data width y
      ++ drop y (replicate height (replicate width Byte.x00))).
Proof.
  induction y as [|y IH]; intros Hy Hlen; [done|].
  rewrite for_range_S, IH, row_major_grid_S by lia. simpl.
  assert (Hgl : length (row_major_grid texture_data width y) = y)
    by apply length_row_major_grid.
  rewrite (indices_row _ (replicate width Byte.x00)).
  - f_equal.
    rewrite insert_prefix_suffix by (done || rewrite length_replicate; lia).
    f_equal.
  - rewrite lookup_app_r by lia. rewrite Hgl, Nat.sub_diag.
    rewrite lookup_drop, Nat.add_0_r. apply lookup_replicate_2. lia.
  - apply length_replicate.
  - lia.
Qed.
End indices.

Lemma extract_texture_indices_ok texture_data palette width height :
  width * height ≤ length texture_data ->
  extract_texture_indices texture_data palette width height =
  Ok (row_major_grid texture_data width height).
Proof.
  intros Hlen. unfold extract_texture_indices.
  rewrite indices_rows_prefix by lia.
  by rewrite drop_ge, app_nil_r by (by rewrite length_replicate).
Qed.

Lemma extract_texture_indices_truncated texture_data palette width height :
  length texture_data < width * height ->
  extract_texture_indices texture_data palette width height = Raise IndexError.
Proof.
  intros Hlen. unfold extract_texture_indices.
  assert (Hw : 0 < width) by lia.
  set (y0 := length texture_data / width).
  set (x0 := length texture_data mod width).
  assert (Hdm : length texture_data = y0 * width + x0)
    by (subst y0 x0; rewrite (Nat.div_mod_eq (length texture_data) width) at 1; lia).
  assert (Hx0 : x0 < width) by (apply Nat.mod_upper_bound; lia).
  assert (Hy0 : y0 < height) by nia.
  eapply (for_range_raise height y0).
  - done.
  - apply indices_rows_prefix; lia.
  - eapply (for_range_raise width x0); [done| |].
    + eapply (indices_row_prefix _ _ _ (replicate width Byte.x00)).
      * rewrite lookup_app_r by (rewrite length_row_major_grid; lia).
        rewrite length_row_major_grid, Nat.sub_diag.
        rewrite lookup_drop, Nat.add_0_r. apply lookup_replicate_2. lia.
      * apply length_replicate.
      * lia.
      * lia.
    + unfold getitem. rewrite lookup_ge_None_2 by lia. done.
Qed.
(** ** The per-pixel colour lookup of the viewer *)

Lemma comprehension_total {A B : Type} (f : A -> result B) (g : A -> B) xs :
  (∀ x, f x = Ok (g x)) -> comprehension f xs = Ok (g <$> xs).
Proof.
  intros Hf. induction xs as [|x xs IH]; simpl; [done|].
  by rewrite Hf, IH.
Qed.

Lemma length_texture_palette palette_raw :
  length (texture_palette palette_raw) = 256.
Proof.
  unfold texture_palette, palette_offsets.
  by rewrite !length_fmap, length_seq.
Qed.

Lemma lookup_texture_palette palette_raw k :
  k < 256 ->
  texture_palette palette_raw !! k = Some (slice palette_raw (k * 4) (k * 4 + 3)).
Proof.
  intros Hk. unfold texture_palette, palette_offsets.
  rewrite !list_lookup_fmap, lookup_seq_lt by done. done.
Qed.

Lemma byte_lt_256 (i : byte) : Byte.to_nat i < 256.
Proof. pose proof (Byte.to_nat_bounded i). lia. Qed.

Lemma palette_lookup_direct palette_raw (i : byte) :
  palette_lookup (texture_palette palette_raw) i =
  Ok (slice palette_raw (Byte.to_nat i * 4) (Byte.to_nat i * 4 + 3)).
Proof.
  pose proof (byte_lt_256 i) as Hi.
  unfold palette_lookup. rewrite length_texture_palette.
  rewrite bool_decide_eq_false_2 by lia.
  rewrite Nat.mod_small by done.
  unfold getitem. by rewrite lookup_texture_palette.
Qed.

Lemma texture_pixels_direct data tex :
  texture_pixels data tex =
  Ok ((fun i : byte =>
         slice (tex_palette tex) (Byte.to_nat i * 4) (Byte.to_nat i * 4 + 3))
      <$> slice data (tex_offset tex + 1024)
                (tex_offset tex + 1024 + tex_width tex * tex_height tex)).
Proof.
  unfold texture_pixels. apply comprehension_total.
  intros i. apply palette_lookup_direct.
Qed.

Lemma texture_pixels_direct_lookup palette_raw (pixel_data : list byte) k i :
  pixel_data !! k = Some i ->
  ((fun i : byte => slice palette_raw (Byte.to_nat i * 4) (Byte.to_nat i * 4 + 3))
   <$> pixel_data) !! k
  = texture_palette palette_raw !! Byte.to_nat i.
Proof.
  intros Hk. rewrite list_lookup_fmap, Hk. simpl.
  by rewrite lookup_texture_palette by apply byte_lt_256.
Qed.

(** C10: the palette of the viewer always has 256 entries and a pixel
    byte is below 256, so [i % len(palette)] is [i], the lookup
    [palette[i % len(palette)]] never raises and is the direct lookup
    [palette[i]], and building the pixel list never fails. *)
Theorem palette_lookup_total (data : list byte) (tex : texture) :
  let palette := texture_palette (tex_palette tex) in
  let pixel_data :=
    slice data (tex_offset tex + 1024)
          (tex_offset tex + 1024 + tex_width tex * tex_height tex) in
  length palette = 256
  ∧ (∀ i : byte,
       Byte.to_nat i < 256
       ∧ Byte.to_nat i mod length palette = Byte.to_nat i
       ∧ ∃ c, palette !! Byte.to_nat i = Some c
              ∧ palette_lookup palette i = Ok c)
  ∧ ∃ pixels,
      texture_pixels data tex = Ok pixels
      ∧ length pixels = length pixel_data
      ∧ ∀ k i, pixel_data !! k = Some i -> pixels !! k = palette !! Byte.to_nat i.
Proof.
  intros palette pixel_data.
  split; [apply length_texture_palette|]. split.
  - intros i. pose proof (byte_lt_256 i) as Hi. split; [done|].
    split; [subst palette; rewrite length_texture_palette; by apply Nat.mod_small|].
    eexists. split; [by apply lookup_texture_palette|].
    apply palette_lookup_direct.
  - eexists. split; [apply texture_pixels_direct|].
    split; [by rewrite length_fmap|].
    intros k i Hk. by apply texture_pixels_direct_lookup.
Qed.


(** ** Decoding the index grid *)

Lemma slice_take {A : Type} (l : list A) a b n :
  b ≤ n -> slice (take n l) a b = slice l a b.
Proof.
  intros Hb. unfold slice.
  destruct (decide (a ≤ b)) as [Hab|Hab].
  - rewrite !take_drop_commute, take_take. do 2 f_equal. lia.
  - replace (b - a) with 0 by lia. by rewrite !take_0.
Qed.

Lemma row_major_grid_take bytes width height :
  row_major_grid (take (width * height) bytes) width height =
  row_major_grid bytes width height.
Proof.
  unfold row_major_grid. apply list_fmap_ext.
  intros k y Hy. apply lookup_seq in Hy as [-> Hlt]. simpl.
  apply slice_take. nia.
Qed.

(** C4: given at least [width*height] bytes, [extract_texture_indices]
    returns the grid of [height] rows of [width] cells in which cell
    [(y, x)] is byte [y*width + x]; the bytes after the first
    [width*height] play no part. *)
Theorem extract_texture_indices_row_major (texture_data : list byte)
    (palette : list color) (width height : nat) :
  width * height ≤ length texture_data ->
  ∃ grid,
    extract_texture_indices texture_data palette width height = Ok grid
    ∧ grid = row_major_grid texture_data width height
    ∧ length grid = height
    ∧ (∀ y x, y < height ∧ x < width ->
         ∃ row, grid !! y = Some row
                ∧ length row = width
                ∧ row !! x = texture_data !! (y * width + x))
    ∧ extract_texture_indices (take (width * height) texture_data)
        palette width height = Ok grid.
Proof.
  intros Hlen. exists (row_major_grid texture_data width height).
  split; [by apply extract_texture_indices_ok|]. split; [done|].
  split; [apply length_row_major_grid|]. split.
  - intros y x [Hy Hx]. eexists. split.
    + unfold row_major_grid. rewrite list_lookup_fmap, lookup_seq_lt by done.
      done.
    + split; [apply slice_full_length; nia|].
      apply slice_lookup. lia.
  - rewrite extract_texture_indices_ok
      by (rewrite length_take; lia).
    by rewrite row_major_grid_take.
Qed.

Lemma extract_texture_indices_2x2 :
  extract_texture_indices [Byte.x00; Byte.x01; Byte.x02; Byte.x03] [] 2 2
  = Ok [[Byte.x00; Byte.x01]; [Byte.x02; Byte.x03]].
Proof.
  destruct (extract_texture_indices_row_major
              [Byte.x00; Byte.x01; Byte.x02; Byte.x03] [] 2 2)
    as (grid & Hgrid & -> & _).
  - simpl. lia.
  - exact Hgrid.
Defined.

(** ** Truncated pixel data *)



(** ** A record that fails to decode *)

Lemma save_all_loop_skip `{ImageLibrary} data before tex after count :
  get_texture_image data tex = None ->
  save_all_loop data (before ++ tex :: after) count =
  save_all_loop data (before ++ after) count.
Proof.
  intros Hnone. revert count.
  induction before as [|t before IH]; intros count; simpl.
  - by rewrite Hnone.
  - destruct (get_texture_image data t); [|apply IH]. by rewrite IH.
Qed.

(** What is saved on the way to a pass that raises stays saved, and the
    run ends with the exception. *)
Lemma scan_from_abort data prev start saved e :
  prev < length data ->
  scan_iteration data prev = Continue start saved ->
  start < length data ->
  scan_iteration data start = Abort e ->
  scan_from data prev = (option_list saved, Raised e).
Proof.
  intros Hprev Hit Hstart Hab.
  rewrite (scan_from_unfold data prev), bool_decide_eq_true_2, Hit by done.
  rewrite (scan_from_unfold data start), bool_decide_eq_true_2, Hab by done.
  by rewrite app_nil_r.
Qed.




(** ** The marker that the scan matches *)

(** C2: on a buffer that holds one well-formed record named [psx_A] the
    scan finds the [psx_] marker, searches for [gman] instead, finds none
    and stops: no record is discovered.  The same record is decoded when
    its name holds [gman]. *)
Theorem psx_record_not_discovered :
  find psx_record_buffer psx_marker 0 = Some 0
  ∧ find_name_start psx_record_buffer 0 = None
  ∧ extract_textures psx_record_buffer = ([], Finished)
  ∧ ∃ file,
      extract_textures
        (scan_record "psx_gmanA" Byte.x02 Byte.x02
           [Byte.x00; Byte.x01; Byte.x02; Byte.x03])
      = ([file], Finished)
      ∧ bmp_indices file = [[Byte.x00; Byte.x01]; [Byte.x02; Byte.x03]].
Proof.
  split; [reflexivity|]. split; [reflexivity|]. split; [reflexivity|].
  destruct (extract_textures _) as [files e] eqn:Hrun.
  vm_compute in Hrun. injection Hrun as <- <-.
  eexists. split; reflexivity.
Qed.
(** * Further properties of [PS2-HLTE.py] *)

(** ** [sanitize_filename] *)

(** X1: a sanitized name is as long as the name, holds no NUL, and a name
    without NUL (so also a sanitized one) is left as it is. *)
Theorem sanitize_filename_no_nul (filename : string) :
  String.length (sanitize_filename filename) = String.length filename
  ∧ ("000"%char ∉ list_ascii_of_string (sanitize_filename filename))
  ∧ sanitize_filename (sanitize_filename filename) = sanitize_filename filename
  ∧ (("000"%char ∉ list_ascii_of_string filename) ->
     sanitize_filename filename = filename).
Proof.
  assert (Hfix : ∀ s, ("000"%char ∉ list_ascii_of_string s) ->
                      sanitize_filename s = s).
  { induction s as [|c s IH]; simpl; [done|].
    intros Hnot. apply not_elem_of_cons in Hnot as [Hc Hs].
    rewrite IH by done. destruct (Ascii.eqb_spec c "000"%char); congruence. }
  assert (Hnul : "000"%char ∉ list_ascii_of_string (sanitize_filename filename)).
  { induction filename as [|c s IH]; simpl; [apply not_elem_of_nil|].
    apply not_elem_of_cons. split; [|done].
    destruct (Ascii.eqb_spec c "000"%char); [done|congruence]. }
  split; [|split; [done|split; [by apply Hfix|exact (Hfix filename)]]].
  clear. induction filename as [|c s IH]; simpl; [done|]. by rewrite IH.
Qed.

(** ** [extract_palette] *)

Lemma extract_palette_prefix texture_data k :
  k * 4 ≤ length texture_data ->
  ∃ palette,
    extract_palette texture_data k = Ok palette
    ∧ length palette = k
    ∧ ∀ i, i < k ->
        ∃ r g b a,
          palette !! i = Some (r, g, b)
          ∧ texture_data !! (i * 4) = Some r
          ∧ texture_data !! (i * 4 + 1) = Some g
          ∧ texture_data !! (i * 4 + 2) = Some b
          ∧ texture_data !! (i * 4 + 3) = Some a.
Proof.
  unfold extract_palette. induction k as [|k IH]; intros Hlen.
  - exists []. split; [done|]. split; [done|]. intros i Hi. lia.
  - destruct IH as (palette & Hrun & Hl & Hentries); [lia|].
    destruct (slice_4 texture_data (k * 4) ltac:(lia))
      as (r & g & b & a & Hr & Hg & Hb & Ha & Hsl).
    exists (palette ++ [(r, g, b)]). rewrite for_range_S, Hrun. simpl.
    rewrite Hsl. split; [done|]. split; [rewrite length_app; simpl; lia|].
    intros i Hi. destruct (decide (i = k)) as [->|Hne].
    + exists r, g, b, a. rewrite lookup_app_r by lia.
      rewrite Hl, Nat.sub_diag. done.
    + destruct (Hentries i ltac:(lia)) as (r' & g' & b' & a' & Hp & Hrest).
      exists r', g', b', a'. rewrite lookup_app_l by lia. done.
Qed.

(** X2: with at least [4 * num_colors] bytes, [extract_palette] returns
    [num_colors] colours, colour [i] being the first three bytes of the
    four-byte entry at offset [4 * i]. *)
Theorem extract_palette_entries (texture_data : list byte) (num_colors : nat) :
  num_colors * 4 ≤ length texture_data ->
  ∃ palette,
    extract_palette texture_data num_colors = Ok palette
    ∧ length palette = num_colors
    ∧ ∀ i, i < num_colors ->
        ∃ r g b a,
          palette !! i = Some (r, g, b)
          ∧ texture_data !! (i * 4) = Some r
          ∧ texture_data !! (i * 4 + 1) = Some g
          ∧ texture_data !! (i * 4 + 2) = Some b
          ∧ texture_data !! (i * 4 + 3) = Some a.
Proof. apply extract_palette_prefix. Qed.

Lemma extract_palette_entries_witness :
  ∃ palette,
    extract_palette [Byte.x01; Byte.x02; Byte.x03; Byte.x04;
                     Byte.x05; Byte.x06; Byte.x07; Byte.x08] 2 = Ok palette
    ∧ length palette = 2.
Proof.
  destruct (extract_palette_entries
              [Byte.x01; Byte.x02; Byte.x03; Byte.x04;
               Byte.x05; Byte.x06; Byte.x07; Byte.x08] 2)
    as (palette & Hrun & Hl & _).
  - simpl. lia.
  - exists palette. split; [exact Hrun|exact Hl].
Defined.

Lemma extract_palette_short texture_data num_colors :
  length texture_data < num_colors * 4 ->
  extract_palette texture_data num_colors = Raise ValueError.
Proof.
  intros Hlen.
  set (k := length texture_data / 4).
  assert (Hk : k * 4 ≤ length texture_data < k * 4 + 4) by (subst k; lia).
  destruct (extract_palette_prefix texture_data k ltac:(lia))
    as (palette & Hrun & _).
  unfold extract_palette in *.
  eapply (for_range_raise num_colors k); [lia|exact Hrun|].
  simpl.
  assert (Hsl : length (slice texture_data (k * 4) (k * 4 + 4)) < 4)
    by (rewrite length_slice; lia).
  destruct (slice texture_data (k * 4) (k * 4 + 4)) as [|? [|? [|? [|? [|? ?]]]]];
    simpl in Hsl; [done|done|done|done|lia|lia].
Qed.

(** X3: with fewer than [4 * num_colors] bytes the unpacking of the first
    incomplete entry raises [ValueError]; no shorter palette is returned. *)
Theorem extract_palette_truncated (texture_data : list byte) (num_colors : nat) :
  length texture_data < num_colors * 4 ->
  extract_palette texture_data num_colors = Raise ValueError.
Proof. apply extract_palette_short. Qed.

Lemma extract_palette_truncated_witness :
  extract_palette [Byte.x01; Byte.x02; Byte.x03; Byte.x04; Byte.x05] 2
  = Raise ValueError.
Proof.
  apply (extract_palette_truncated
           [Byte.x01; Byte.x02; Byte.x03; Byte.x04; Byte.x05] 2).
  simpl. lia.
Defined.

(** ** [decode_texture]: palette, indices and file of one record *)

Lemma flat_map_colours_length (palette : list color) :
  length (flat_map (fun '(r, g, b) => [r; g; b]) palette) = 3 * length palette.
Proof.
  induction palette as [|[[r g] b] palette IH]; simpl; [done|]. rewrite IH. lia.
Qed.

Lemma flat_map_colours_lookup (palette : list color) i r g b :
  palette !! i = Some (r, g, b) ->
  flat_map (fun '(r, g, b) => [r; g; b]) palette !! (3 * i) = Some r
  ∧ flat_map (fun '(r, g, b) => [r; g; b]) palette !! (3 * i + 1) = Some g
  ∧ flat_map (fun '(r, g, b) => [r; g; b]) palette !! (3 * i + 2) = Some b.
Proof.
  revert i. induction palette as [|[[r' g'] b'] palette IH]; intros i; [done|].
  destruct i as [|i]; simpl.
  - by intros [= -> -> ->].
  - intros Hi. destruct (IH i Hi) as (Hr & Hg & Hb).
    replace (i + S (i + S (i + 0))) with (2 + 3 * i) by lia.
    replace (2 + 3 * i + 1) with (2 + (3 * i + 1)) by lia.
    replace (2 + 3 * i + 2) with (2 + (3 * i + 2)) by lia.
    done.
Qed.

Lemma decode_texture_ok texture_name texture_data width height :
  1024 + width * height ≤ length texture_data ->
  ∃ file,
    decode_texture texture_name texture_data width height = Ok file
    ∧ bmp_name file = (texture_name ++ ".bmp")%string
    ∧ bmp_indices file = row_major_grid (drop 1024 texture_data) width height
    ∧ length (bmp_palette file) = 768
    ∧ ∀ i c, i < 256 -> c < 3 ->
        bmp_palette file !! (3 * i + c) = texture_data !! (4 * i + c).
Proof.
  intros Hlen. unfold decode_texture.
  destruct (extract_palette_prefix texture_data 256 ltac:(lia))
    as (palette & -> & Hl & Hentries).
  simpl. change (256 * 4) with 1024.
  rewrite extract_texture_indices_ok by (rewrite length_drop; lia). simpl.
  eexists. split; [done|]. simpl. split; [done|]. split; [done|].
  split; [rewrite flat_map_colours_length; lia|].
  intros i c Hi Hc. cbn [bmp_palette].
  destruct (Hentries i Hi) as (r & g & b & a & Hp & Hr & Hg & Hb & _).
  destruct (flat_map_colours_lookup palette i r g b Hp) as (Fr & Fg & Fb).
  replace (i * 4) with (4 * i) in * by lia.
  destruct c as [|[|[|c]]]; [| | |lia].
  - trans (Some r); [rewrite <- Fr | rewrite <- Hr]; f_equal; lia.
  - trans (Some g); [rewrite <- Fg | rewrite <- Hg]; f_equal; lia.
  - trans (Some b); [rewrite <- Fb | rewrite <- Hb]; f_equal; lia.
Qed.

Lemma decode_texture_short texture_name texture_data width height :
  length texture_data < 1024 + width * height ->
  decode_texture texture_name texture_data width height =
  Raise (if bool_decide (length texture_data < 1024) then ValueError
         else IndexError).
Proof.
  intros Hlen. unfold decode_texture. case_bool_decide as Hpal.
  - by rewrite extract_palette_short by lia.
  - destruct (extract_palette_prefix texture_data 256 ltac:(lia))
      as (palette & -> & _).
    simpl. change (256 * 4) with 1024.
    by rewrite extract_texture_indices_truncated by (rewrite length_drop; lia).
Qed.



(** X5: a data block shorter than [1024 + width*height] bytes makes the
    decoding raise: [ValueError] when the palette itself is incomplete,
    [IndexError] when only pixel bytes are missing. *)
Theorem decode_texture_truncated (texture_name : string) (texture_data : list byte)
    (width height : nat) :
  length texture_data < 1024 + width * height ->
  decode_texture texture_name texture_data width height =
  Raise (if bool_decide (length texture_data < 1024) then ValueError
         else IndexError).
Proof. apply decode_texture_short. Qed.

Lemma decode_texture_truncated_witness :
  decode_texture "gmanA" (replicate 1024 Byte.x07 ++ [Byte.x01]) 2 1
  = Raise IndexError.
Proof.
  apply (decode_texture_truncated "gmanA"
           (replicate 1024 Byte.x07 ++ [Byte.x01]) 2 1).
  vm_compute. lia.
Defined.

(** ** What a pass of the scan can do *)

Lemma int_from_bytes_little_bound bs :
  int_from_bytes_little bs < 256 ^ length bs.
Proof.
  induction bs as [|b bs IH]; simpl; [lia|].
  pose proof (Byte.to_nat_bounded b). lia.
Qed.

Lemma size_pattern_Some data texture_start :
  4 ≤ texture_start ->
  ∃ width height,
    size_pattern data texture_start = Some (width, height)
    ∧ width < 256 * 256 ∧ height < 256 * 256.
Proof.
  intros Hts. unfold size_pattern. rewrite bool_decide_eq_true_2 by lia.
  eexists _, _. split; [done|].
  set (size_data := slice data _ _).
  assert (Hl : length size_data ≤ 4) by (subst size_data; rewrite length_slice; lia).
  pose proof (int_from_bytes_little_bound (take 2 size_data)) as H1.
  pose proof (int_from_bytes_little_bound (drop 2 size_data)) as H2.
  rewrite length_take in H1. rewrite length_drop in H2.
  assert (256 ^ (2 `min` length size_data) ≤ 256 ^ 2)
    by (apply Nat.pow_le_mono_r; lia).
  assert (256 ^ (length size_data - 2) ≤ 256 ^ 2)
    by (apply Nat.pow_le_mono_r; lia).
  rewrite Nat.pow_2_r in *. lia.
Qed.

(** The three ways in which a pass goes round again or ends the run. *)
Lemma scan_iteration_inv data start :
  match scan_iteration data start with
  | Break | Stuck => True
  | Continue s None =>
    ∃ name_start,
      find_name_start data start = Some name_start
      ∧ scan_name_end data name_start = Some s
      ∧ endswith (texture_name_at data name_start s) ".BMP" = true
  | Continue s (Some file) =>
    ∃ name_start texture_start width height,
      find_name_start data start = Some name_start
      ∧ scan_name_end data name_start = Some s
      ∧ endswith (texture_name_at data name_start s) ".BMP" = false
      ∧ find data data_sentinel s = Some texture_start
      ∧ size_pattern data texture_start = Some (width, height)
      ∧ width < 256 * 256 ∧ height < 256 * 256
      ∧ decode_texture (texture_name_at data name_start s)
          (slice data texture_start
             (default (length data) (find data psx_marker (texture_start + 4))))
          width height = Ok file
  | Abort e => e = ValueError ∨ e = IndexError
  end.
Proof.
  unfold scan_iteration.
  destruct (find_name_start data start) as [name_start|] eqn:Hn; [|done].
  destruct (scan_name_end_spec data name_start) as (name_end & He & Hle & _).
  rewrite He.
  destruct (endswith _ _) eqn:Hbmp; [by exists name_start|].
  destruct (find data data_sentinel name_end) as [texture_start|] eqn:Hs; [|done].
  pose proof (find_Some _ _ _ _ Hs) as (Hge & _).
  destruct (size_pattern_Some data texture_start ltac:(lia))
    as (width & height & Hsp & Hw & Hh).
  unfold process_texture. rewrite Hsp.
  set (texture_data := slice data texture_start _).
  destruct (decode_texture _ texture_data width height) as [file|e] eqn:Hdec.
  - exists name_start, texture_start, width, height. done.
  - destruct (decide (length texture_data < 1024 + width * height)) as [Hlt|Hge'].
    + rewrite decode_texture_short in Hdec by done.
      case_bool_decide; injection Hdec as <-; auto.
    + destruct (decode_texture_ok (texture_name_at data name_start name_end)
                  texture_data width height ltac:(lia)) as (file & Hok & _).
      congruence.
Qed.

(** X6: a pass continues without saving a file only for a name that ends
    in [.BMP]: a sentinel found after a name always has its four size bytes
    in front of it, so the test [size_pattern_start >= 0] never fails and
    no record is dropped silently. *)
Theorem pass_without_file_is_bmp_name (data : list byte) (start s : nat) :
  scan_iteration data start = Continue s None ->
  ∃ name_start,
    find_name_start data start = Some name_start
    ∧ scan_name_end data name_start = Some s
    ∧ endswith (texture_name_at data name_start s) ".BMP" = true.
Proof.
  intros Hit. pose proof (scan_iteration_inv data start) as Hinv.
  by rewrite Hit in Hinv.
Qed.

Lemma pass_without_file_is_bmp_name_witness :
  ∃ name_start,
    find_name_start bmp_name_buffer 0 = Some name_start
    ∧ scan_name_end bmp_name_buffer name_start = Some 13
    ∧ endswith (texture_name_at bmp_name_buffer name_start 13) ".BMP" = true.
Proof.
  apply (pass_without_file_is_bmp_name bmp_name_buffer 0 13). reflexivity.
Defined.

(** ** The run as a whole *)

Lemma scan_loop_ends fuel data start :
  length data - start < fuel ->
  ((scan_loop fuel data start).2 = Finished
   ∨ (scan_loop fuel data start).2 = Raised ValueError
   ∨ (scan_loop fuel data start).2 = Raised IndexError)
  ∧ 4 * length (scan_loop fuel data start).1 ≤ length data + 3 - start.
Proof.
  revert start. induction fuel as [|fuel IH]; intros start Hf; [lia|].
  simpl. case_bool_decide as Hs; [|simpl; split; [auto|lia]].
  pose proof (scan_iteration_inv data start) as Hinv.
  destruct (scan_iteration data start) as [|start' saved|e|] eqn:Hit.
  - simpl. split; [auto|lia].
  - apply scan_iteration_progress in Hit.
    destruct (decide (start' < length data)) as [Hin|Hout].
    + destruct (IH start' ltac:(lia)) as [Hend Hcount].
      clear Hinv. destruct (scan_loop fuel data start') as [files e]. simpl in *.
      split; [done|]. rewrite length_app.
      destruct saved; simpl; lia.
    + destruct fuel as [|fuel]; [lia|]. simpl.
      rewrite bool_decide_eq_false_2 by done. simpl.
      split; [auto|]. rewrite length_app. destruct saved; simpl; lia.
  - simpl. split; [|lia]. destruct Hinv as [-> | ->]; auto.
  - by apply scan_iteration_not_stuck in Hit.
Qed.


(** ** The files that a run writes *)

Lemma scan_loop_saved (P : bmp_file -> Prop) data :
  (∀ start s file, scan_iteration data start = Continue s (Some file) -> P file) ->
  ∀ fuel start, Forall P (scan_loop fuel data start).1.
Proof.
  intros HP. induction fuel as [|fuel IH]; intros start; simpl; [constructor|].
  case_bool_decide; [|constructor].
  destruct (scan_iteration data start) as [|start' saved|e|] eqn:Hit;
    try constructor.
  specialize (IH start'). destruct (scan_loop fuel data start') as [files e].
  simpl in *. apply Forall_app. split; [|done].
  destruct saved as [file|]; simpl; [|constructor].
  constructor; [by eapply HP|constructor].
Qed.

Lemma sanitize_filename_nul_free s :
  "000"%char ∉ list_ascii_of_string (sanitize_filename s).
Proof.
  induction s as [|c s IH]; simpl; [apply not_elem_of_nil|].
  apply not_elem_of_cons. split; [|done].
  destruct (Ascii.eqb_spec c "000"%char); [done|congruence].
Qed.

Lemma string_append_assoc (s1 s2 s3 : string) :
  ((s1 ++ s2) ++ s3 = s1 ++ (s2 ++ s3))%string.
Proof.
  induction s1 as [|c s1 IH]; [done|].
  change (String c ((s1 ++ s2) ++ s3) = String c (s1 ++ s2 ++ s3))%string.
  by f_equal.
Qed.

Lemma texture_name_gman data start name_start name_end :
  find_name_start data start = Some name_start ->
  name_start + 4 ≤ name_end ->
  texture_name_at data name_start name_end =
  ("gman" ++ sanitize_filename
               (decode_ascii_ignore (slice data (name_start + 4) name_end)))%string.
Proof.
  intros Hn Hle. apply find_name_start_Some in Hn as (_ & _ & Hat & _).
  unfold texture_name_at.
  rewrite (slice_app data name_start (name_start + 4) name_end) by lia.
  by rewrite Hat, decode_ascii_ignore_app, sanitize_filename_app.
Qed.

Lemma decode_texture_Ok_inv texture_name texture_data width height file :
  decode_texture texture_name texture_data width height = Ok file ->
  1024 + width * height ≤ length texture_data
  ∧ bmp_name file = (texture_name ++ ".bmp")%string
  ∧ bmp_indices file = row_major_grid (drop 1024 texture_data) width height
  ∧ length (bmp_palette file) = 768
  ∧ ∀ i c, i < 256 -> c < 3 ->
      bmp_palette file !! (3 * i + c) = texture_data !! (4 * i + c).
Proof.
  intros Hdec.
  destruct (decide (1024 + width * height ≤ length texture_data)) as [Hlen|Hlen].
  - split; [done|].
    destruct (decode_texture_ok texture_name texture_data width height Hlen)
      as (file' & Hok & Hrest).
    rewrite Hok in Hdec. by injection Hdec as <-.
  - rewrite decode_texture_short in Hdec by lia. done.
Qed.

(** X8: every file written by [extract_textures] is named [gman], then
    a stem without NUL, then [.bmp]; and the name in front of [.bmp] never
    ends in [.BMP]. *)
Theorem saved_names (data : list byte) :
  Forall (fun file =>
            ∃ stem,
              bmp_name file = ("gman" ++ stem ++ ".bmp")%string
              ∧ ("000"%char ∉ list_ascii_of_string stem)
              ∧ endswith ("gman" ++ stem) ".BMP" = false)
         (extract_textures data).1.
Proof.
  apply scan_loop_saved. intros start s file Hit.
  pose proof (scan_iteration_inv data start) as Hinv. rewrite Hit in Hinv.
  destruct Hinv as (name_start & texture_start & width & height
                    & Hn & He & Hbmp & _ & _ & _ & _ & Hdec).
  destruct (scan_name_end_spec data name_start) as (e & He' & Hle & _).
  assert (e = s) as -> by congruence.
  apply decode_texture_Ok_inv in Hdec as (_ & Hname & _).
  rewrite (texture_name_gman data start) in Hname, Hbmp by done.
  eexists. split; [|split; [apply sanitize_filename_nul_free|exact Hbmp]].
  rewrite Hname. apply (string_append_assoc "gman").
Qed.

(** X9: every file written by [extract_textures] has a palette of 768
    bytes whose first colour is (255, 255, 255), the first bytes of the
    sentinel at which the data block starts, and an index grid of [height]
    rows of [width] cells with both numbers below 65536. *)
Theorem saved_images (data : list byte) :
  Forall (fun file =>
            length (bmp_palette file) = 768
            ∧ take 3 (bmp_palette file) = [Byte.xff; Byte.xff; Byte.xff]
            ∧ ∃ width height,
                width < 256 * 256 ∧ height < 256 * 256
                ∧ length (bmp_indices file) = height
                ∧ Forall (fun row => length row = width) (bmp_indices file))
         (extract_textures data).1.
Proof.
  apply scan_loop_saved. intros start s file Hit.
  pose proof (scan_iteration_inv data start) as Hinv. rewrite Hit in Hinv.
  destruct Hinv as (name_start & texture_start & width & height
                    & _ & _ & _ & Hs & _ & Hw & Hh & Hdec).
  apply find_Some in Hs as (_ & Hlen & Hat & _). simpl in Hlen.
  set (texture_end := default (length data)
                        (find data psx_marker (texture_start + 4))) in *.
  assert (Hend : texture_start + 4 ≤ texture_end).
  { subst texture_end.
    destruct (find data psx_marker (texture_start + 4)) as [n|] eqn:Hnext;
      simpl; [|lia].
    apply find_Some in Hnext. lia. }
  apply decode_texture_Ok_inv in Hdec as (Hsize & _ & Hgrid & Hpal & Hbytes).
  split; [done|]. split.
  - assert (Hc : ∀ c, c < 3 -> bmp_palette file !! c = data_sentinel !! c).
    { intros c Hc. rewrite <- Hat.
      replace c with (3 * 0 + c) at 1 by lia.
      rewrite Hbytes by lia. simpl.
      rewrite !slice_lookup by (simpl; lia). done. }
    pose proof (Hc 0 ltac:(lia)) as H0. pose proof (Hc 1 ltac:(lia)) as H1.
    pose proof (Hc 2 ltac:(lia)) as H2.
    destruct (bmp_palette file) as [|x0 [|x1 [|x2 rest]]]; try done.
    simpl in H0, H1, H2. simpl. rewrite take_0. congruence.
  - exists width, height. split; [done|]. split; [done|].
    rewrite Hgrid. split; [apply length_row_major_grid|].
    unfold row_major_grid. apply Forall_fmap, Forall_forall.
    intros y Hy. apply elem_of_seq in Hy. unfold compose.
    apply slice_full_length. rewrite length_drop. nia.
Qed.

Lemma scan_loop_no_sentinel fuel data start :
  (∀ q, slice data q (q + 4) ≠ data_sentinel) ->
  length data - start < fuel ->
  scan_loop fuel data start = ([], Finished).
Proof.
  intros Hno. revert start. induction fuel as [|fuel IH]; intros start Hf; [lia|].
  simpl. case_bool_decide as Hs; [|done].
  pose proof (scan_iteration_inv data start) as Hinv.
  destruct (scan_iteration data start) as [|start' [file|]|e|] eqn:Hit.
  - done.
  - destruct Hinv as (? & ? & ? & ? & _ & _ & _ & Hfound & _).
    by rewrite (find_absent data data_sentinel _ Hno) in Hfound.
  - apply scan_iteration_progress in Hit.
    destruct (decide (start' < length data)).
    + by rewrite IH by lia.
    + destruct fuel; [lia|]. simpl. by rewrite bool_decide_eq_false_2.
  - exfalso. revert Hit. unfold scan_iteration.
    destruct (find_name_start data start) as [name_start|]; [|done].
    destruct (scan_name_end data name_start) as [name_end|]; [|done].
    destruct (endswith _ _); [done|].
    by rewrite (find_absent data data_sentinel _ Hno).
  - by apply scan_iteration_not_stuck in Hit.
Qed.

(** X10: on a buffer in which the bytes FF FF FF 80 do not occur,
    [extract_textures] writes nothing and ends without an exception,
    whatever names the buffer holds. *)
Theorem no_sentinel_no_file (data : list byte) :
  (∀ q, slice data q (q + 4) ≠ data_sentinel) ->
  extract_textures data = ([], Finished).
Proof. intros Hno. apply scan_loop_no_sentinel; [done|lia]. Qed.

Lemma no_sentinel_no_file_witness :
  extract_textures bmp_name_buffer = ([], Finished).
Proof.
  apply (no_sentinel_no_file bmp_name_buffer).
  intros q. destruct (decide (q < 17)) as [Hq|Hq].
  - do 17 (destruct q as [|q]; [by vm_compute|]). lia.
  - unfold slice. rewrite drop_ge by (vm_compute; lia). by rewrite take_nil.
Defined.

(** X11: the image written for a name is read at the first sentinel after
    the name and nowhere else: two passes whose names are followed by the
    same sentinel write files with the same palette and the same grid. *)
Theorem same_sentinel_same_image (data : list byte)
    (start1 s1 start2 s2 texture_start : nat) (file1 file2 : bmp_file) :
  scan_iteration data start1 = Continue s1 (Some file1) ->
  scan_iteration data start2 = Continue s2 (Some file2) ->
  find data data_sentinel s1 = Some texture_start ->
  find data data_sentinel s2 = Some texture_start ->
  bmp_palette file1 = bmp_palette file2
  ∧ bmp_indices file1 = bmp_indices file2.
Proof.
  intros Hit1 Hit2 Hs1 Hs2.
  pose proof (scan_iteration_inv data start1) as Hinv1. rewrite Hit1 in Hinv1.
  pose proof (scan_iteration_inv data start2) as Hinv2. rewrite Hit2 in Hinv2.
  destruct Hinv1 as (n1 & t1 & w1 & h1 & _ & _ & _ & Hf1 & Hsp1 & _ & _ & Hd1).
  destruct Hinv2 as (n2 & t2 & w2 & h2 & _ & _ & _ & Hf2 & Hsp2 & _ & _ & Hd2).
  assert (t1 = texture_start) as -> by congruence.
  assert (t2 = texture_start) as -> by congruence.
  assert (w2 = w1 ∧ h2 = h1) as [-> ->] by (split; congruence).
  revert Hd1 Hd2. unfold decode_texture.
  destruct (extract_palette _ _) as [palette|]; [|done]. simpl.
  destruct (extract_texture_indices _ _ _ _) as [indices|]; [|done]. simpl.
  by intros [= <-] [= <-].
Qed.

Lemma same_sentinel_same_image_witness :
  ∃ file1 file2,
    extract_textures two_names_buffer = ([file1; file2], Finished)
    ∧ bmp_palette file1 = bmp_palette file2
    ∧ bmp_indices file1 = bmp_indices file2.
Proof.
  destruct (scan_iteration two_names_buffer 0) as [|s1 [file1|]| |] eqn:Hit1;
    try (vm_compute in Hit1; discriminate Hit1).
  destruct (scan_iteration two_names_buffer 12) as [|s2 [file2|]| |] eqn:Hit2;
    try (vm_compute in Hit2; discriminate Hit2).
  assert (Hs1 : s1 = 9) by (vm_compute in Hit1; congruence).
  assert (Hs2 : s2 = 21) by (vm_compute in Hit2; congruence).
  subst s1 s2.
  exists file1, file2. split.
  - unfold extract_textures.
    rewrite scan_from_unfold, bool_decide_eq_true_2, Hit1 by (vm_compute; lia).
    rewrite scan_from_unfold, bool_decide_eq_true_2 by (vm_compute; lia).
    replace (scan_iteration two_names_buffer 9) with (Continue 21 (Some file2))
      by (rewrite <- Hit2; vm_compute; reflexivity).
    replace (scan_from two_names_buffer 21) with (@nil bmp_file, Finished)
      by (vm_compute; reflexivity).
    reflexivity.
  - apply (same_sentinel_same_image two_names_buffer 0 9 12 21 28 file1 file2).
    + exact Hit1.
    + exact Hit2.
    + reflexivity.
    + reflexivity.
Defined.
(** * Further properties of [dol_png.py] *)

(** ** The swizzle on bytes and on colours *)

Lemma swizzle_permutation_Permutation pal : swizzle_permutation pal ≡ₚ pal.
Proof.
  apply Permutation_inj. split; [apply length_swizzle_permutation|].
  exists (fun j => if decide (j < length pal)
                   then swizzle_source (length pal) j else j).
  split.
  - intros x y. unfold swizzle_source. repeat case_decide; lia.
  - intros i. case_decide as Hi.
    + by apply lookup_swizzle_permutation.
    + rewrite !lookup_ge_None_2; [done| |];
        rewrite ?length_swizzle_permutation; lia.
Qed.

(** X12: the palette correction only moves bytes: its result is a
    rearrangement of the input, with no byte lost, added or changed. *)
Theorem ps2_palette_reformat_rearranges (pal : list byte) :
  ∃ q, ps2_palette_reformat pal = Ok q ∧ q ≡ₚ pal.
Proof.
  exists (swizzle_permutation pal).
  split; [apply ps2_palette_reformat_spec|apply swizzle_permutation_Permutation].
Qed.

Lemma colour_source_lt k : k < 256 -> colour_source k < 256.
Proof. intros. unfold colour_source. repeat case_decide; lia. Qed.

Lemma texture_palette_swizzle pal k :
  length pal = 1024 ->
  k < 256 ->
  texture_palette (swizzle_permutation pal) !! k =
  texture_palette pal !! colour_source k.
Proof.
  intros Hlen Hk.
  rewrite !lookup_texture_palette by (done || by apply colour_source_lt).
  f_equal. apply list_eq. intros i.
  pose proof (colour_source_lt k Hk) as Hs.
  destruct (decide (i < 3)) as [Hi|Hi].
  - rewrite !slice_lookup by lia.
    rewrite lookup_swizzle_permutation by lia.
    f_equal. rewrite Hlen. unfold swizzle_source, colour_source.
    repeat case_decide; lia.
  - rewrite !lookup_ge_None_2; [done| |];
      rewrite length_slice, ?length_swizzle_permutation; lia.
Qed.

(** X13: on a full 1024-byte block the correction moves whole colours:
    the palette read from the corrected block has in slot [k] the colour
    that the raw block has in slot [colour_source k], which exchanges the
    slots 8..15 and 16..23 of every group of 32 and is its own inverse. *)
Theorem reformat_exchanges_colours (pal : list byte) (k : nat) :
  length pal = 1024 ->
  k < 256 ->
  ∃ q,
    ps2_palette_reformat pal = Ok q
    ∧ texture_palette q !! k = texture_palette pal !! colour_source k
    ∧ colour_source k < 256
    ∧ colour_source (colour_source k) = k.
Proof.
  intros Hlen Hk. exists (swizzle_permutation pal).
  split; [apply ps2_palette_reformat_spec|].
  split; [by apply texture_palette_swizzle|].
  split; [by apply colour_source_lt|].
  unfold colour_source. repeat case_decide; lia.
Qed.

Lemma reformat_exchanges_colours_witness :
  ∃ q,
    ps2_palette_reformat palette_with_entry_8 = Ok q
    ∧ texture_palette q !! 16 = Some [Byte.x0a; Byte.x14; Byte.x1e].
Proof.
  destruct (reformat_exchanges_colours palette_with_entry_8 16)
    as (q & Hrun & Hlook & _).
  - reflexivity.
  - lia.
  - exists q. split; [exact Hrun|]. rewrite Hlook. reflexivity.
Defined.

(** ** Complete textures *)

(** X14: when the file holds all [width*height] pixel bytes of a texture
    and its palette block has at least 1023 bytes, the pixel list has
    exactly [width*height] entries, each a full three-byte colour: pixel
    [k] is the colour stored at palette offset [4 * i] for the pixel byte
    [i] at file offset [offset + 1024 + k]. *)
Theorem texture_pixels_complete (data : list byte) (tex : texture) :
  tex_offset tex + 1024 + tex_width tex * tex_height tex ≤ length data ->
  1023 ≤ length (tex_palette tex) ->
  ∃ pixels,
    texture_pixels data tex = Ok pixels
    ∧ length pixels = tex_width tex * tex_height tex
    ∧ Forall (fun px => length px = 3) pixels
    ∧ ∀ k, k < tex_width tex * tex_height tex ->
        ∃ i : byte,
          data !! (tex_offset tex + 1024 + k) = Some i
          ∧ pixels !! k =
              Some (slice (tex_palette tex) (Byte.to_nat i * 4)
                          (Byte.to_nat i * 4 + 3)).
Proof.
  intros Hdata Hpal. eexists. split; [apply texture_pixels_direct|].
  split; [rewrite length_fmap, length_slice; lia|]. split.
  - apply Forall_fmap, Forall_forall. intros i _. unfold compose.
    pose proof (byte_lt_256 i). rewrite length_slice. lia.
  - intros k Hk.
    destruct (lookup_lt_is_Some_2 data (tex_offset tex + 1024 + k) ltac:(lia))
      as [i Hi].
    exists i. split; [done|].
    rewrite list_lookup_fmap, slice_lookup by lia. by rewrite Hi.
Qed.

Lemma texture_pixels_complete_witness :
  ∃ pixels,
    texture_pixels all_five_data all_five_texture = Ok pixels
    ∧ length pixels = 4
    ∧ Forall (fun px => length px = 3) pixels.
Proof.
  destruct (texture_pixels_complete all_five_data all_five_texture)
    as (pixels & Hrun & Hlen & Hall & _).
  - vm_compute. lia.
  - vm_compute. lia.
  - exists pixels. split; [exact Hrun|]. split; [exact Hlen|exact Hall].
Defined.

(** ** [save_all_png8] *)

Lemma save_all_loop_spec `{ImageLibrary} data textures count :
  (save_all_loop data textures count).2
  = count + length (save_all_loop data textures count).1
  ∧ (save_all_loop data textures count).1.*2
    = omap (fun tex => convert_adaptive <$> get_texture_image data tex) textures
  ∧ ∀ k name img8,
      (save_all_loop data textures count).1 !! k = Some (name, img8) ->
      ∃ tex img,
        tex ∈ textures
        ∧ get_texture_image data tex = Some img
        ∧ img8 = convert_adaptive img
        ∧ name = png_file_name tex (count + k).
Proof.
  revert count. induction textures as [|tex textures IH]; intros count; simpl.
  - split; [lia|]. split; [done|]. intros k name img8 Hk. done.
  - destruct (get_texture_image data tex) as [img|] eqn:Himg; simpl.
    + destruct (IH (count + 1)) as (Hc & Himgs & Hnames).
      destruct (save_all_loop data textures (count + 1)) as [files count'].
      simpl in *. split; [lia|]. split; [by f_equal|].
      intros [|k] name img8 Hk; simpl in Hk.
      * injection Hk as <- <-. exists tex, img.
        rewrite Nat.add_0_r. split; [left|done].
      * destruct (Hnames k name img8 Hk) as (tex' & img' & Hin & Hi & -> & ->).
        exists tex', img'. split; [by right|].
        split; [done|]. split; [done|]. f_equal. lia.
    + destruct (IH count) as (Hc & Himgs & Hnames).
      split; [done|]. split; [done|].
      intros k name img8 Hk.
      destruct (Hnames k name img8 Hk) as (tex' & img' & Hin & Hrest).
      exists tex', img'. split; [by right|done].
Qed.


(** ** File names *)

Lemma append_cons c (s1 s2 : string) :
  (String c s1 ++ s2)%string = String c (s1 ++ s2).
Proof. reflexivity. Qed.

Lemma str_lower_app s1 s2 :
  str_lower (s1 ++ s2) = (str_lower s1 ++ str_lower s2)%string.
Proof.
  induction s1 as [|c s1 IH]; [done|].
  rewrite append_cons. simpl. by rewrite IH.
Qed.

Lemma lower_char_not_dot c : c ≠ "."%char -> lower_char c ≠ "."%char.
Proof.
  destruct c as [[] [] [] [] [] [] [] []]; intros Hc; vm_compute; congruence.
Qed.

Lemma remove_bmp_other c rest :
  c ≠ "."%char -> remove_bmp (String c rest) = String c (remove_bmp rest).
Proof.
  destruct c as [[] [] [] [] [] [] [] []]; intros Hc;
    first [reflexivity | by destruct Hc].
Qed.

Lemma remove_bmp_no_dot s :
  ("."%char ∉ list_ascii_of_string s) -> remove_bmp s = s.
Proof.
  induction s as [|c s IH]; [done|]. simpl list_ascii_of_string.
  intros [Hc Hs]%not_elem_of_cons.
  rewrite remove_bmp_other by congruence. by rewrite IH.
Qed.

Lemma remove_bmp_suffix s :
  ("."%char ∉ list_ascii_of_string s) -> remove_bmp (s ++ ".bmp") = s.
Proof.
  induction s as [|c s IH]; [done|]. simpl list_ascii_of_string.
  intros [Hc Hs]%not_elem_of_cons.
  rewrite append_cons, remove_bmp_other by congruence. by rewrite IH.
Qed.

Lemma str_lower_no_dot s :
  ("."%char ∉ list_ascii_of_string s) ->
  "."%char ∉ list_ascii_of_string (str_lower s).
Proof.
  induction s as [|c s IH]; [done|]. simpl.
  intros [Hc Hs]%not_elem_of_cons. apply not_elem_of_cons.
  split; [|by apply IH].
  intros Heq. by apply (lower_char_not_dot c); [congruence|].
Qed.

(** X16: a texture with an ASCII name made of a stem without dots
    followed by [.bmp] in any mix of upper and lower case is saved under
    the lower-cased stem with [.png] appended. *)
Theorem png_file_name_of_bmp_name (tex : texture) (count : nat) (stem ext : string) :
  tex_name tex = (stem ++ ext)%string ->
  Forall (fun c => nat_of_ascii c < 128) (list_ascii_of_string (stem ++ ext)) ->
  ("."%char ∉ list_ascii_of_string stem) ->
  str_lower ext = ".bmp"%string ->
  png_file_name tex count = (str_lower stem ++ ".png")%string.
Proof.
  intros Hname _ Hstem Hext. unfold png_file_name, safe_name. rewrite Hname.
  assert (Hne : (stem ++ ext)%string ≠ EmptyString).
  { destruct stem; [|done]. destruct ext; [done|done]. }
  destruct (stem ++ ext)%string as [|c s] eqn:Heq; [done|].
  rewrite <- Heq, str_lower_app, Hext.
  by rewrite remove_bmp_suffix by (by apply str_lower_no_dot).
Qed.

Lemma png_file_name_of_bmp_name_witness :
  png_file_name {| tex_name := "GMan_Face1.BMP"; tex_flags := 0; tex_width := 1;
                   tex_height := 1; tex_offset := 0; tex_palette := [] |} 3
  = "gman_face1.png"%string.
Proof.
  apply (png_file_name_of_bmp_name _ 3 "GMan_Face1" ".BMP").
  - reflexivity.
  - simpl. repeat (constructor; [vm_compute; lia|]). constructor.
  - simpl. intros Hin.
    repeat (apply elem_of_cons in Hin as [Hin|Hin]; [discriminate Hin|]).
    by apply elem_of_nil in Hin.
  - reflexivity.
Defined.

Lemma str_lower_fixed s :
  Forall (fun c => ¬ 65 ≤ nat_of_ascii c ≤ 90) (list_ascii_of_string s) ->
  str_lower s = s.
Proof.
  induction s as [|c s IH]; [done|]. simpl.
  intros [Hc Hs]%Forall_cons. rewrite IH by done.
  unfold lower_char. by rewrite bool_decide_eq_false_2.
Qed.

Lemma digits_of_uint d :
  Forall (fun c => 48 ≤ nat_of_ascii c ≤ 57)
         (list_ascii_of_string (NilEmpty.string_of_uint d)).
Proof.
  induction d; simpl; [constructor|..]; (constructor; [vm_compute; lia|done]).
Qed.

Lemma digits_of_nat n :
  Forall (fun c => 48 ≤ nat_of_ascii c ≤ 57)
         (list_ascii_of_string (NilZero.string_of_uint (Nat.to_uint n))).
Proof.
  unfold NilZero.string_of_uint.
  destruct (Nat.to_uint n) eqn:Hd; rewrite <- ?Hd; try apply digits_of_uint.
  simpl. constructor; [vm_compute; lia|constructor].
Qed.

(** X17: an unnamed texture is saved as [texture_<count>.png], with the
    count in decimal: lower-casing and the removal of [.bmp] leave that
    name as it is. *)
Theorem png_file_name_unnamed (tex : texture) (count : nat) :
  tex_name tex = EmptyString ->
  png_file_name tex count
  = ("texture_" ++ NilZero.string_of_uint (Nat.to_uint count) ++ ".png")%string.
Proof.
  intros Hname. unfold png_file_name, safe_name. rewrite Hname.
  pose proof (digits_of_nat count) as Hd.
  set (digits := NilZero.string_of_uint (Nat.to_uint count)) in *.
  assert (Hup : Forall (fun c => ¬ 65 ≤ nat_of_ascii c ≤ 90)
                  (list_ascii_of_string ("texture_" ++ digits))).
  { simpl. repeat (constructor; [vm_compute; lia|]).
    eapply list.Forall_impl; [exact Hd|]. simpl. intros c Hc. lia. }
  assert (Hdot : "."%char ∉ list_ascii_of_string ("texture_" ++ digits)).
  { simpl. intros Hin.
    repeat (apply elem_of_cons in Hin as [Hin|Hin]; [discriminate Hin|]).
    apply (proj1 (Forall_forall _ _) Hd) in Hin. vm_compute in Hin. lia. }
  rewrite str_lower_fixed by done. rewrite remove_bmp_no_dot by done.
  apply string_append_assoc.
Qed.

Lemma png_file_name_unnamed_witness :
  png_file_name {| tex_name := ""; tex_flags := 0; tex_width := 1;
                   tex_height := 1; tex_offset := 0; tex_palette := [] |} 12
  = "texture_12.png"%string.
Proof.
  apply (png_file_name_unnamed
           {| tex_name := ""; tex_flags := 0; tex_width := 1;
              tex_height := 1; tex_offset := 0; tex_palette := [] |} 12).
  reflexivity.
Defined.

(** ** [load_mdl] *)

Lemma header_fields_in_range n :
  Forall (field_readable n) HEADER_FIELDS ↔ 244 ≤ n.
Proof.
  split.
  - intros Hall.
    destruct (proj1 (Forall_forall _ _) Hall ("transitionindex"%string, 240))
      as [Hname|Hr]; [|done|vm_compute in Hr; lia].
    unfold HEADER_FIELDS. repeat (first [by left | right]).
  - intros Hn. unfold HEADER_FIELDS.
    repeat (constructor; [first [by left | right; vm_compute; lia]|]).
    constructor.
Qed.

Lemma header_fields_NoDup : NoDup HEADER_FIELDS.*1.
Proof.
  unfold HEADER_FIELDS. simpl.
  repeat (constructor;
          [intros Hin;
           repeat (apply elem_of_cons in Hin as [Hin|Hin]; [discriminate Hin|]);
           by apply elem_of_nil in Hin|]).
  constructor.
Qed.

Lemma table_capacity_spec len textureindex i :
  textureindex + i * 80 + 76 ≤ len ↔ i < table_capacity len textureindex.
Proof. unfold table_capacity. case_decide; lia. Qed.

Lemma unpack_uint32_in_range data offset :
  offset + 4 ≤ length data ->
  unpack_uint32 data offset = Done (uint32_at data offset).
Proof.
  intros Hr. unfold unpack_uint32, unpack_from.
  by rewrite bool_decide_eq_true_2.
Qed.

Lemma data_offset_of_S data textureindex texturedataindex i :
  data_offset_of data textureindex texturedataindex (S i)
  = data_offset_of data textureindex texturedataindex i
    + (1024 + 32
       + uint32_at data (textureindex + i * 80 + 68)
         * uint32_at data (textureindex + i * 80 + 72)).
Proof.
  unfold data_offset_of. rewrite seq_S, fmap_app, sum_list_with_app. simpl. lia.
Qed.

Section loader_facts.
Context (decode : list byte -> string).

Lemma header_value_in_range data name offset :
  field_readable (length data) (name, offset) ->
  ∃ value, header_value decode data name offset = Done value.
Proof.
  unfold field_readable, header_value, field_size, unpack_uint32, unpack_from.
  simpl. repeat case_bool_decide; intros [Hn|Hr]; try done; try lia;
    simpl; eauto.
Qed.

Lemma header_value_out_of_range data name offset :
  ¬ field_readable (length data) (name, offset) ->
  header_value decode data name offset = Failed StructError.
Proof.
  unfold field_readable, header_value, field_size, unpack_uint32, unpack_from.
  simpl. repeat case_bool_decide; intros Hr; simpl; try done; tauto.
Qed.

Lemma parse_header_keep data fields entries k :
  k ∉ fields.*1 ->
  (parse_header decode data fields entries).1 !! k = entries !! k.
Proof.
  revert entries. induction fields as [|[name offset] fields IH];
    intros entries Hk; simpl; [done|].
  simpl in Hk. apply not_elem_of_cons in Hk as [Hne Hk].
  destruct (header_value decode data name offset); [|done].
  destruct (entries !! name); [|done].
  rewrite IH by done. by rewrite lookup_insert_ne.
Qed.

Lemma parse_header_is_Some data fields entries k :
  is_Some (entries !! k) ->
  is_Some ((parse_header decode data fields entries).1 !! k).
Proof.
  revert entries. induction fields as [|[name offset] fields IH];
    intros entries Hk; simpl; [done|].
  destruct (header_value decode data name offset); [|done].
  destruct (entries !! name) eqn:Hn; [|done].
  apply IH. destruct (decide (name = k)) as [->|Hne].
  - by rewrite lookup_insert_eq.
  - by rewrite lookup_insert_ne.
Qed.

Lemma parse_header_cons data name offset fields entries :
  parse_header decode data ((name, offset) :: fields) entries
  = match header_value decode data name offset with
    | Done value =>
      match entries !! name with
      | Some _ => parse_header decode data fields (<[name := value]> entries)
      | None => (entries, Some KeyError)
      end
    | Failed e => (entries, Some e)
    end.
Proof. reflexivity. Qed.

Lemma parse_header_outcome data fields entries :
  Forall (fun f : string * nat => is_Some (entries !! f.1)) fields ->
  (parse_header decode data fields entries).2
  = if decide (Forall (field_readable (length data)) fields)
    then None else Some StructError.
Proof.
  revert entries. induction fields as [|[name offset] fields IH];
    intros entries Hready.
  - done.
  - rewrite parse_header_cons.
    apply Forall_cons in Hready as [[v Hv] Hready]. simpl in Hv.
    destruct (decide (field_readable (length data) (name, offset))) as [Hr|Hr].
    + destruct (header_value_in_range data name offset Hr) as [value ->].
      rewrite Hv. rewrite IH.
      * destruct (decide (Forall (field_readable (length data)) fields))
          as [Hall|Hall].
        -- rewrite decide_True; [done|by constructor].
        -- rewrite decide_False; [done|].
           intros Hall'. by apply Forall_cons in Hall' as [_ ?].
      * eapply list.Forall_impl; [exact Hready|]. intros [n o] Hs. simpl in *.
        destruct (decide (name = n)) as [->|Hne].
        -- by rewrite lookup_insert_eq.
        -- by rewrite lookup_insert_ne.
    + rewrite header_value_out_of_range by done.
      rewrite decide_False; [done|].
      intros Hall. by apply Forall_cons in Hall as [? _].
Qed.

Lemma parse_header_value data fields entries name offset value :
  Forall (fun f : string * nat => is_Some (entries !! f.1)) fields ->
  Forall (field_readable (length data)) fields ->
  NoDup fields.*1 ->
  (name, offset) ∈ fields ->
  header_value decode data name offset = Done value ->
  (parse_header decode data fields entries).1 !! name = Some value.
Proof.
  revert entries. induction fields as [|[n o] fields IH];
    intros entries Hready Hrange Hnd Hin Hval; [by apply elem_of_nil in Hin|].
  apply Forall_cons in Hready as [[v Hv] Hready].
  apply Forall_cons in Hrange as [Hr Hrange].
  simpl in Hnd. apply NoDup_cons in Hnd as [Hfresh Hnd].
  simpl in *. destruct (header_value_in_range data n o Hr) as [value' Hval'].
  rewrite Hval', Hv.
  assert (Hready' : Forall (fun f : string * nat =>
                              is_Some (<[n:=value']> entries !! f.1)) fields).
  { eapply list.Forall_impl; [exact Hready|]. intros [n' o'] Hs. simpl in *.
    destruct (decide (n = n')) as [->|Hne].
    - by rewrite lookup_insert_eq.
    - by rewrite lookup_insert_ne. }
  apply elem_of_cons in Hin as [[= -> ->]|Hin].
  - rewrite parse_header_keep by done.
    rewrite lookup_insert_eq. congruence.
  - by apply IH.
Qed.

Lemma load_texture_in_range reformat data textureindex texturedataindex i :
  i < table_capacity (length data) textureindex ->
  load_texture decode reformat data textureindex i
    (data_offset_of data textureindex texturedataindex i)
  = Done (table_texture decode reformat data textureindex texturedataindex i).
Proof.
  intros Hi%table_capacity_spec. unfold load_texture.
  rewrite !unpack_uint32_in_range by lia. simpl.
  destruct reformat; [|done].
  by rewrite ps2_palette_reformat_spec.
Qed.

Lemma load_texture_out_of_range reformat data textureindex i data_offset :
  ¬ i < table_capacity (length data) textureindex ->
  load_texture decode reformat data textureindex i data_offset
  = Failed StructError.
Proof.
  rewrite <- table_capacity_spec. intros Hi.
  unfold load_texture, unpack_uint32, unpack_from.
  repeat case_bool_decide; simpl; try done. lia.
Qed.

Lemma load_textures_spec reformat data textureindex texturedataindex n a acc :
  load_textures decode reformat data textureindex (seq a n) acc
    (data_offset_of data textureindex texturedataindex a)
  = (acc ++ (table_texture decode reformat data textureindex texturedataindex
             <$> seq a (n `min` (table_capacity (length data) textureindex - a))),
     if decide (n ≤ table_capacity (length data) textureindex - a)
     then None else Some StructError).
Proof.
  revert a acc. induction n as [|n IH]; intros a acc.
  - simpl. by rewrite app_nil_r.
  - cbn [seq load_textures].
    destruct (decide (a < table_capacity (length data) textureindex)) as [Ha|Ha].
    + rewrite (load_texture_in_range _ _ _ texturedataindex) by done.
      cbn [tex_width tex_height table_texture].
      rewrite <- data_offset_of_S, IH.
      replace (S n `min` (table_capacity (length data) textureindex - a))
        with (S (n `min` (table_capacity (length data) textureindex - S a)))
        by lia.
      cbn [seq fmap list_fmap]. rewrite <- app_assoc. f_equal.
      repeat case_decide; first [done | lia].
    + rewrite load_texture_out_of_range by done.
      replace (S n `min` (table_capacity (length data) textureindex - a))
        with 0 by lia.
      simpl. rewrite app_nil_r. f_equal. case_decide; [lia|done].
Qed.

Lemma header_number data name offset :
  name ≠ "name"%string ->
  name ∉ vector_fields ->
  offset + 4 ≤ length data ->
  header_value decode data name offset = Done (Number (uint32_at data offset)).
Proof.
  intros Hn Hv Hr. unfold header_value.
  rewrite !bool_decide_eq_false_2 by done.
  by rewrite unpack_uint32_in_range.
Qed.

(** What [load_mdl] does to a file of at least 244 bytes. *)
Lemma load_mdl_spec st file :
  entries_ready (viewer_entries st) ->
  244 ≤ length file ->
  let numtextures := uint32_at file 180 in
  let textureindex := uint32_at file 184 in
  let texturedataindex := uint32_at file 188 in
  let capacity := table_capacity (length file) textureindex in
  (load_mdl decode st file).2
    = (if decide (numtextures ≤ capacity) then None else Some StructError)
  ∧ viewer_data (load_mdl decode st file).1 = Some file
  ∧ viewer_textures (load_mdl decode st file).1
    = (table_texture decode (reformat_var st) file textureindex texturedataindex
       <$> seq 0 (numtextures `min` capacity))
  ∧ reformat_var (load_mdl decode st file).1 = reformat_var st
  ∧ entries_ready (viewer_entries (load_mdl decode st file).1).
Proof.
  intros Hready Hlen numtextures textureindex texturedataindex capacity.
  pose proof (proj2 (header_fields_in_range (length file)) Hlen) as Hrange.
  pose proof (parse_header_outcome file HEADER_FIELDS _ Hready) as Hout.
  rewrite decide_True in Hout by done.
  assert (Hnum : ∀ name offset,
            (name, offset) ∈ HEADER_FIELDS ->
            name ≠ "name"%string -> name ∉ vector_fields ->
            offset + 4 ≤ 244 ->
            (parse_header decode file HEADER_FIELDS (viewer_entries st)).1 !! name
            = Some (Number (uint32_at file offset))).
  { intros name offset Hin Hn Hv Hoff.
    apply (parse_header_value file HEADER_FIELDS _ name offset);
      [done|done|apply header_fields_NoDup|done|].
    apply header_number; [done|done|lia]. }
  assert (Hready' : entries_ready
            (parse_header decode file HEADER_FIELDS (viewer_entries st)).1).
  { unfold entries_ready in *. eapply list.Forall_impl; [exact Hready|].
    intros f Hf. by apply parse_header_is_Some. }
  assert (Hvec : ∀ name, name ∈ ["textureindex"; "texturedataindex";
                                 "numtextures"]%string ->
                         name ≠ "name"%string ∧ name ∉ vector_fields).
  { intros name Hin.
    repeat (apply elem_of_cons in Hin as [->|Hin];
            [split; [done|];
             intros Hv;
             repeat (apply elem_of_cons in Hv as [Hv|Hv]; [discriminate Hv|]);
             by apply elem_of_nil in Hv|]).
    by apply elem_of_nil in Hin. }
  pose proof (Hnum "textureindex"%string 184) as Hti.
  pose proof (Hnum "texturedataindex"%string 188) as Htdi.
  pose proof (Hnum "numtextures"%string 180) as Hnt.
  unfold load_mdl.
  destruct (parse_header decode file HEADER_FIELDS (viewer_entries st))
    as [entries err]. simpl in Hout, Hready', Hti, Htdi, Hnt. subst err.
  unfold entry_int.
  rewrite Hti, Htdi, Hnt;
    try (unfold HEADER_FIELDS; repeat (first [by left | right]));
    try (apply Hvec; repeat (first [by left | right]));
    try lia.
  simpl.
  pose proof (load_textures_spec (reformat_var st) file textureindex
                texturedataindex numtextures 0 []) as Hloop.
  unfold data_offset_of in Hloop at 1. simpl in Hloop.
  rewrite Nat.add_0_r, Nat.sub_0_r in Hloop.
  fold numtextures textureindex texturedataindex.
  rewrite Hloop. simpl. fold capacity. done.
Qed.
End loader_facts.

Lemma new_viewer_ready : entries_ready (viewer_entries new_viewer).
Proof.
  unfold entries_ready. apply Forall_forall. intros f Hf.
  apply not_eq_None_Some. intros Hnone.
  apply not_elem_of_list_to_map_2 in Hnone. apply Hnone.
  rewrite <- list_fmap_compose. by apply list_elem_of_fmap_2.
Qed.

Lemma load_mdl_short st decode file :
  entries_ready (viewer_entries st) ->
  length file < 244 ->
  (load_mdl decode st file).2 = Some StructError
  ∧ viewer_data (load_mdl decode st file).1 = Some file
  ∧ viewer_textures (load_mdl decode st file).1 = viewer_textures st
  ∧ reformat_var (load_mdl decode st file).1 = reformat_var st
  ∧ entries_ready (viewer_entries (load_mdl decode st file).1).
Proof.
  intros Hready Hlen.
  pose proof (parse_header_outcome decode file HEADER_FIELDS _ Hready) as Hout.
  rewrite decide_False in Hout by (rewrite header_fields_in_range; lia).
  assert (Hready' : entries_ready
            (parse_header decode file HEADER_FIELDS (viewer_entries st)).1).
  { unfold entries_ready in *. eapply list.Forall_impl; [exact Hready|].
    intros f Hf. by apply parse_header_is_Some. }
  unfold load_mdl.
  destruct (parse_header decode file HEADER_FIELDS (viewer_entries st))
    as [entries err]. simpl in Hout, Hready'. subst err. done.
Qed.

(** X18: a file shorter than the 244 bytes of the header is refused with
    [struct.error], but [self.data] is already the new file while
    [self.textures] is still the table of the file loaded before. *)
Theorem load_mdl_short_file (decode : list byte -> string) (st : viewer)
    (file : list byte) :
  entries_ready (viewer_entries st) ->
  length file < 244 ->
  (load_mdl decode st file).2 = Some StructError
  ∧ viewer_data (load_mdl decode st file).1 = Some file
  ∧ viewer_textures (load_mdl decode st file).1 = viewer_textures st.
Proof.
  intros Hready Hlen.
  destruct (load_mdl_short st decode file Hready Hlen) as (? & ? & ? & _ & _).
  done.
Qed.

Lemma load_mdl_short_file_witness :
  (load_mdl decode_ascii_ignore
     (load_mdl decode_ascii_ignore new_viewer one_texture_file).1
     (take 200 one_texture_file)).2 = Some StructError
  ∧ viewer_data
      (load_mdl decode_ascii_ignore
         (load_mdl decode_ascii_ignore new_viewer one_texture_file).1
         (take 200 one_texture_file)).1 = Some (take 200 one_texture_file)
  ∧ viewer_textures
      (load_mdl decode_ascii_ignore
         (load_mdl decode_ascii_ignore new_viewer one_texture_file).1
         (take 200 one_texture_file)).1
    = viewer_textures (load_mdl decode_ascii_ignore new_viewer one_texture_file).1.
Proof.
  apply (load_mdl_short_file decode_ascii_ignore
           (load_mdl decode_ascii_ignore new_viewer one_texture_file).1
           (take 200 one_texture_file)).
  - apply load_mdl_spec; [apply new_viewer_ready|vm_compute; lia].
  - vm_compute. lia.
Defined.

(** X19: for a file of at least 244 bytes, with [numtextures],
    [textureindex] and [texturedataindex] the numbers at offsets 180, 184
    and 188, [load_mdl] records the table entries that lie inside the file,
    in order, and raises [struct.error] exactly when there are fewer of
    them than [numtextures].  Entry [i] gets its name, flags, width and
    height from the 80-byte record at [textureindex + 80*i], its palette
    from the 1024 bytes at its data offset, swizzled when the reformat
    switch is on, and data offsets advance by 1024 + 32 + width*height. *)
Theorem load_mdl_texture_table (decode : list byte -> string) (st : viewer)
    (file : list byte) :
  entries_ready (viewer_entries st) ->
  244 ≤ length file ->
  let numtextures := uint32_at file 180 in
  let textureindex := uint32_at file 184 in
  let texturedataindex := uint32_at file 188 in
  let capacity := table_capacity (length file) textureindex in
  let textures := viewer_textures (load_mdl decode st file).1 in
  (load_mdl decode st file).2
    = (if decide (numtextures ≤ capacity) then None else Some StructError)
  ∧ viewer_data (load_mdl decode st file).1 = Some file
  ∧ length textures = numtextures `min` capacity
  ∧ ∀ i, i < numtextures `min` capacity ->
      ∃ tex,
        textures !! i = Some tex
        ∧ tex_name tex
          = decode (before_nul (slice file (textureindex + i * 80)
                                      (textureindex + i * 80 + 64)))
        ∧ tex_flags tex = uint32_at file (textureindex + i * 80 + 64)
        ∧ tex_width tex = uint32_at file (textureindex + i * 80 + 68)
        ∧ tex_height tex = uint32_at file (textureindex + i * 80 + 72)
        ∧ tex_offset tex = data_offset_of file textureindex texturedataindex i
        ∧ tex_palette tex
          = (let raw := slice file (tex_offset tex) (tex_offset tex + 1024) in
             if reformat_var st then swizzle_permutation raw else raw).
Proof.
  intros Hready Hlen numtextures textureindex texturedataindex capacity textures.
  destruct (load_mdl_spec decode st file Hready Hlen) as (Herr & Hdata & Htex & _).
  split; [exact Herr|]. split; [exact Hdata|].
  subst textures numtextures textureindex texturedataindex capacity.
  rewrite Htex. split; [by rewrite length_fmap, length_seq|].
  intros i Hi. eexists. split.
  - apply list_lookup_fmap_Some_2, lookup_seq. split; [reflexivity|exact Hi].
  - simpl. done.
Qed.

Lemma load_mdl_texture_table_witness :
  (load_mdl decode_ascii_ignore new_viewer one_texture_file).2 = None
  ∧ length (viewer_textures
              (load_mdl decode_ascii_ignore new_viewer one_texture_file).1) = 1.
Proof.
  destruct (load_mdl_texture_table decode_ascii_ignore new_viewer one_texture_file)
    as (Herr & _ & Hlen & _).
  - apply new_viewer_ready.
  - vm_compute. lia.
  - split; [exact Herr|exact Hlen].
Defined.

(** X20: in the table that [load_mdl] builds, each texture's block starts
    1024 + width*height + 32 bytes after the block of the texture before
    it, so the palette and pixel bytes of two textures never overlap. *)
Theorem loaded_textures_layout (decode : list byte -> string) (st : viewer)
    (file : list byte) (i : nat) (tex1 tex2 : texture) :
  entries_ready (viewer_entries st) ->
  viewer_textures (load_mdl decode st file).1 !! i = Some tex1 ->
  viewer_textures (load_mdl decode st file).1 !! S i = Some tex2 ->
  244 ≤ length file ->
  tex_offset tex2
  = tex_offset tex1 + 1024 + tex_width tex1 * tex_height tex1 + 32.
Proof.
  intros Hready H1 H2 Hlen.
  destruct (load_mdl_spec decode st file Hready Hlen) as (_ & _ & Htex & _).
  rewrite Htex in H1, H2.
  apply list_lookup_fmap_Some in H1 as (i1 & -> & Hi1).
  apply list_lookup_fmap_Some in H2 as (i2 & -> & Hi2).
  apply lookup_seq in Hi1 as [-> _]. apply lookup_seq in Hi2 as [-> _].
  cbn [tex_offset tex_width tex_height table_texture Nat.add].
  rewrite data_offset_of_S. lia.
Qed.

Lemma loaded_textures_layout_witness :
  ∃ tex1 tex2,
    viewer_textures (load_mdl decode_ascii_ignore new_viewer two_texture_file).1
      !! 0 = Some tex1
    ∧ viewer_textures (load_mdl decode_ascii_ignore new_viewer two_texture_file).1
      !! 1 = Some tex2
    ∧ tex_offset tex2
      = tex_offset tex1 + 1024 + tex_width tex1 * tex_height tex1 + 32.
Proof.
  destruct (viewer_textures
              (load_mdl decode_ascii_ignore new_viewer two_texture_file).1 !! 0)
    as [tex1|] eqn:H1; [|vm_compute in H1; discriminate H1].
  destruct (viewer_textures
              (load_mdl decode_ascii_ignore new_viewer two_texture_file).1 !! 1)
    as [tex2|] eqn:H2; [|vm_compute in H2; discriminate H2].
  exists tex1, tex2. split; [reflexivity|]. split; [reflexivity|].
  apply (loaded_textures_layout decode_ascii_ignore new_viewer two_texture_file 0).
  - apply new_viewer_ready.
  - exact H1.
  - exact H2.
  - vm_compute. lia.
Defined.

(** ** Sessions of the viewer *)

Lemma load_mdl_keeps decode st file :
  entries_ready (viewer_entries st) ->
  entries_ready (viewer_entries (load_mdl decode st file).1)
  ∧ reformat_var (load_mdl decode st file).1 = reformat_var st
  ∧ ((load_mdl decode st file).2 = None
     ∨ (load_mdl decode st file).2 = Some StructError).
Proof.
  intros Hready. destruct (decide (244 ≤ length file)) as [Hlen|Hlen].
  - destruct (load_mdl_spec decode st file Hready Hlen)
      as (Herr & _ & _ & Hre & Hready').
    split; [done|]. split; [done|]. rewrite Herr. case_decide; auto.
  - destruct (load_mdl_short st decode file Hready ltac:(lia))
      as (Herr & _ & _ & Hre & Hready').
    auto.
Qed.

Lemma session_keeps decode files st :
  entries_ready (viewer_entries st) ->
  entries_ready
    (viewer_entries (foldl (fun st f => (load_mdl decode st f).1) st files))
  ∧ reformat_var (foldl (fun st f => (load_mdl decode st f).1) st files)
    = reformat_var st.
Proof.
  revert st. induction files as [|f files IH]; intros st Hready; simpl; [done|].
  destruct (load_mdl_keeps decode st f Hready) as (Hready' & Hre & _).
  destruct (IH _ Hready') as [? ?]. split; [done|congruence].
Qed.


Lemma slice_slice {A : Type} (l : list A) a b c d :
  a + d ≤ b -> slice (slice l a b) c d = slice l (a + c) (a + d).
Proof.
  intros Hd. apply list_eq. intros i.
  destruct (decide (i < d - c)) as [Hi|Hi].
  - rewrite !slice_lookup by lia. f_equal. lia.
  - rewrite !lookup_ge_None_2; [done| |]; rewrite !length_slice; lia.
Qed.

(** X22: after a file of at least 244 bytes has been opened in any
    session, a recorded texture whose palette and pixel bytes lie inside
    the file is drawn with swizzled colours: the pixel byte [i] at offset
    [offset + 1024 + k] becomes the three bytes found in the file at palette
    slot [colour_source i] of the block at [offset]. *)
Theorem loaded_texture_colours (decode : list byte -> string)
    (files : list (list byte)) (file : list byte) (n k : nat) (tex : texture) :
  let st := foldl (fun st f => (load_mdl decode st f).1) new_viewer files in
  viewer_textures (load_mdl decode st file).1 !! n = Some tex ->
  244 ≤ length file ->
  tex_offset tex + 1024 + tex_width tex * tex_height tex ≤ length file ->
  k < tex_width tex * tex_height tex ->
  ∃ (i : byte) pixels,
    file !! (tex_offset tex + 1024 + k) = Some i
    ∧ texture_pixels file tex = Ok pixels
    ∧ pixels !! k
      = Some (slice file (tex_offset tex + colour_source (Byte.to_nat i) * 4)
                         (tex_offset tex + colour_source (Byte.to_nat i) * 4 + 3)).
Proof.
  intros st Htex Hlen Hfit Hk.
  destruct (session_keeps decode files new_viewer new_viewer_ready)
    as [Hready Hre].
  fold st in Hready, Hre.
  destruct (load_mdl_spec decode st file Hready Hlen) as (_ & _ & Htable & _).
  rewrite Htable in Htex.
  apply list_lookup_fmap_Some in Htex as (j & Hj & _).
  assert (Hpal : tex_palette tex
                 = swizzle_permutation
                     (slice file (tex_offset tex) (tex_offset tex + 1024))).
  { rewrite Hj. cbn [tex_palette tex_offset table_texture].
    by rewrite Hre. }
  destruct (lookup_lt_is_Some_2 file (tex_offset tex + 1024 + k) ltac:(lia))
    as [i Hi].
  exists i. eexists. split; [done|]. split; [apply texture_pixels_direct|].
  rewrite list_lookup_fmap, slice_lookup, Hi by lia. simpl. f_equal.
  pose proof (byte_lt_256 i) as Hb.
  pose proof (colour_source_lt _ Hb) as Hs.
  set (raw := slice file (tex_offset tex) (tex_offset tex + 1024)) in *.
  assert (Hraw : length raw = 1024)
    by (subst raw; rewrite length_slice; lia).
  pose proof (texture_palette_swizzle raw (Byte.to_nat i) Hraw Hb) as Hsw.
  rewrite !lookup_texture_palette in Hsw by done.
  injection Hsw as Hsw. rewrite Hpal, Hsw.
  subst raw. rewrite slice_slice by lia. f_equal; lia.
Qed.

Lemma loaded_texture_colours_witness :
  ∃ tex (i : byte) pixels,
    viewer_textures (load_mdl decode_ascii_ignore new_viewer one_texture_file).1 !! 0
    = Some tex
    ∧ one_texture_file !! (tex_offset tex + 1024 + 3) = Some i
    ∧ texture_pixels one_texture_file tex = Ok pixels
    ∧ pixels !! 3
      = Some (slice one_texture_file
                (tex_offset tex + colour_source (Byte.to_nat i) * 4)
                (tex_offset tex + colour_source (Byte.to_nat i) * 4 + 3)).
Proof.
  destruct (viewer_textures
              (load_mdl decode_ascii_ignore new_viewer one_texture_file).1 !! 0)
    as [tex|] eqn:Htex; [|vm_compute in Htex; discriminate Htex].
  assert (Hoff : tex_offset tex = 324 ∧ tex_width tex = 2 ∧ tex_height tex = 2).
  { vm_compute in Htex. injection Htex as <-. by vm_compute. }
  destruct Hoff as (Hoff & Hw & Hh).
  destruct (loaded_texture_colours decode_ascii_ignore [] one_texture_file 0 3 tex)
    as (i & pixels & Hi & Hpx & Hk).
  - exact Htex.
  - vm_compute. lia.
  - rewrite Hoff, Hw, Hh. vm_compute. lia.
  - rewrite Hw, Hh. lia.
  - exists tex, i, pixels. split; [reflexivity|]. split; [exact Hi|].
    split; [exact Hpx|exact Hk].
Defined.
